(** * meli-token-manager: a shallow embedding of the token rotation code

    The Python package [meli_token_manager] keeps a MercadoLibre OAuth2
    token pair fresh.  This file embeds its five modules
    ([gcp_secret_storage], [rotator], [initializer], [token_access] and
    the configuration helper) as state-and-exception passing functions
    over an explicit model of the process environment (token file,
    Secret Manager project, token endpoint, clock), and proves or refutes
    the properties listed in the specification. *)

From Stdlib Require Import ZArith String Ascii List Lia.
From Stdlib Require Import Floats.SpecFloat.
From stdpp Require Import gmap strings list fin_maps.

#[local] Set Warnings "-register-all".
#[local] Open Scope Z_scope.

(** ** Python values

    Every value the code handles comes out of [json.loads] (or is an
    [int] the code computes), so the dynamically typed [Dict[str, Any]]
    of the source is a JSON value.  Python [float]s are IEEE binary64
    numbers, kept as [spec_float]. *)

Inductive json :=
| JNull
| JBool (b : bool)
| JInt (n : Z)
| JFloat (f : spec_float)
| JStr (s : string)
| JList (l : list json)
| JDict (d : gmap string json).

(** Python truth value of a JSON value ([bool(x)], the test made by [if x],
    [not x] and [x or y]). *)
Definition truthy (v : json) : bool :=
  match v with
  | JNull => false
  | JBool b => b
  | JInt n => negb (n =? 0)
  | JFloat (S754_zero _) => false
  | JFloat _ => true
  | JStr s => negb (String.eqb s "")
  | JList l => negb (Nat.eqb (length l) 0)
  | JDict d => negb (Nat.eqb (size d) 0)
  end.

Arguments truthy : simpl never.

(** [x or y] for already evaluated operands; the code's right operands with
    an effect are sequenced by [or_else] below. *)
Definition py_or (x y : json) : json := if truthy x then x else y.

(** ** Exceptions *)

(** Subclasses of [google.api_core.exceptions.GoogleAPICallError], the
    class of the errors the service answers a call with. *)
Inductive api_error :=
| NotFound
| AlreadyExists
| FailedPrecondition
| PermissionDenied
| ServiceUnavailable.

Inductive exn :=
| RuntimeError (msg : string)
| ValueError
| TypeError
| AttributeError
| OverflowError
| OSError
| JSONDecodeError
| UnicodeDecodeError
| RequestException          (* requests.post gave no response: timeout, connection *)
| HTTPError
| ConfigError (key : string) (* ConfigManager.require on a missing key *)
| GoogleAPICallError (e : api_error)
| RetryError                (* google.api_core.exceptions.RetryError: a
                               GoogleAPIError, not a GoogleAPICallError *).

Inductive result (A : Type) :=
| Ok (a : A)
| Raise (e : exn).
Arguments Ok {A} a.
Arguments Raise {A} e.

Definition is_ok {A} (r : result A) : bool :=
  match r with Ok _ => true | Raise _ => false end.

(** ** Strings: [str.strip] and [int(str)] on ASCII text *)

(** The ASCII characters for which [str.isspace] holds. *)
Definition is_space (c : ascii) : bool :=
  let n := nat_of_ascii c in
  ((9 <=? n)%nat && (n <=? 13)%nat) || ((28 <=? n)%nat && (n <=? 32)%nat).

Fixpoint lstrip (s : string) : string :=
  match s with
  | EmptyString => EmptyString
  | String c s' => if is_space c then lstrip s' else s
  end.

Fixpoint rstrip (s : string) : string :=
  match s with
  | EmptyString => EmptyString
  | String c s' =>
      match rstrip s' with
      | EmptyString => if is_space c then EmptyString else String c EmptyString
      | r => String c r
      end
  end.

Definition strip (s : string) : string := rstrip (lstrip s).

Definition digit_of (c : ascii) : option Z :=
  let n := nat_of_ascii c in
  if ((48 <=? n)%nat && (n <=? 57)%nat)%bool then Some (Z.of_nat n - 48) else None.

(** Decimal digits with single underscores between them, as [int] accepts.
    [after_digit] tells whether the previous character was a digit. *)
Fixpoint digits (s : string) (acc : Z) (after_digit : bool) : option Z :=
  match s with
  | EmptyString => if after_digit then Some acc else None
  | String c s' =>
      match digit_of c with
      | Some d => digits s' (10 * acc + d) true
      | None =>
          if (Ascii.eqb c "_" && after_digit)%bool then digits s' acc false else None
      end
  end.

Definition int_of_str (s : string) : option Z :=
  match strip s with
  | String "-" s' => Z.opp <$> digits s' 0 false
  | String "+" s' => digits s' 0 false
  | s' => digits s' 0 false
  end.

(** [int(x)]: truncation toward zero on floats, decimal parsing on strings. *)
Definition py_int (v : json) : result Z :=
  match v with
  | JInt n => Ok n
  | JBool b => Ok (if b then 1 else 0)
  | JFloat (S754_zero _) => Ok 0
  | JFloat (S754_finite sign m e) =>
      let mag := if (0 <=? e) then Z.pos m * 2 ^ e else Z.pos m / 2 ^ (- e) in
      Ok (if sign then - mag else mag)
  | JFloat (S754_infinity _) => Raise OverflowError
  | JFloat S754_nan => Raise ValueError
  | JStr s => match int_of_str s with Some n => Ok n | None => Raise ValueError end
  | JNull | JList _ | JDict _ => Raise TypeError
  end.

(** [d.get(key)]: [None] for a missing key; an object that is not a dict
    has no [get] attribute. *)
Definition dict_get (d : json) (key : string) : result json :=
  match d with
  | JDict m => Ok (default JNull (m !! key))
  | _ => Raise AttributeError
  end.

(** ** The state-and-exception monad *)

Definition M (S A : Type) : Type := S -> result A * S.

Definition ret {S A} (a : A) : M S A := fun s => (Ok a, s).

Definition raise {S A} (e : exn) : M S A := fun s => (Raise e, s).

Definition bind {S A B} (m : M S A) (k : A -> M S B) : M S B :=
  fun s => match m s with
           | (Ok a, s') => k a s'
           | (Raise e, s') => (Raise e, s')
           end.

Notation "x <- m ;; k" := (bind m (fun x => k))
  (at level 100, m at next level, right associativity).
Notation "m ;; k" := (bind m (fun _ => k))
  (at level 100, right associativity).

(** [try: m except <classes accepted by catches>: handler]. *)
Definition try_except {S A} (m : M S A) (catches : exn -> bool)
    (handler : exn -> M S A) : M S A :=
  fun s => match m s with
           | (Raise e, s') => if catches e then handler e s' else (Raise e, s')
           | r => r
           end.

Definition lift_result {S A} (r : result A) : M S A := fun s => (r, s).

Definition get_state {S} : M S S := fun s => (Ok s, s).
Definition modify {S} (f : S -> S) : M S unit := fun s => (Ok tt, f s).

(** [x or <effectful y>]: the right operand runs only when [x] is falsy. *)
Definition or_else {S} (x : json) (y : M S json) : M S json :=
  if truthy x then ret x else y.

(** [for x in xs: body x]. *)
Fixpoint for_each {S A} (xs : list A) (body : A -> M S unit) : M S unit :=
  match xs with
  | [] => ret tt
  | x :: xs' => body x ;; for_each xs' body
  end.

(** ** The process environment

    Text is kept up to what [json.loads] makes of it: the empty string,
    text that is not JSON, or a document, which is both what
    [json.dumps(v, indent=2)] writes and what [json.loads] reads as [v].
    Bytes are either such text in UTF-8 or not decodable. *)

Inductive text :=
| Blank
| NotJson
| Doc (v : json).

Inductive bytes :=
| NotUtf8
| Utf8 (t : text).

Definition decode (b : bytes) : result text :=
  match b with
  | NotUtf8 => Raise UnicodeDecodeError
  | Utf8 t => Ok t
  end.

Definition encode (t : text) : bytes := Utf8 t.

Definition json_dumps (v : json) : text := Doc v.

Definition json_loads (t : text) : result json :=
  match t with
  | Doc v => Ok v
  | Blank | NotJson => Raise JSONDecodeError
  end.

(** Secret Manager resources.  A secret is the list of its versions, newest
    first; resource names are kept structured: the path of the secret and
    the version number or the [latest] alias. *)

Inductive version_state := ENABLED | DISABLED | DESTROYED.

Inductive version_name :=
| VersionPath (secret : string) (number : nat).

(** What [access_secret_version] takes: the name of a version, or the
    [versions/latest] alias of a secret. *)
Inductive version_ref :=
| Named (name : version_name)
| LatestPath (secret : string).

Record version := {
  v_name : version_name;
  v_state : version_state;
  v_data : bytes;
}.

#[global] Instance version_state_eq_dec : EqDecision version_state.
Proof. solve_decision. Defined.
#[global] Instance version_name_eq_dec : EqDecision version_name.
Proof. solve_decision. Defined.
#[global] Instance version_ref_eq_dec : EqDecision version_ref.
Proof. solve_decision. Defined.

Inductive api_call :=
| GetSecret (name : string)
| CreateSecret (parent secret_id : string)
| AddSecretVersion (parent : string)
| ListSecretVersions (parent : string)
| DisableSecretVersion (name : version_name)
| AccessSecretVersion (name : version_ref)
| ListSecretVersionsPage (parent : string) (offset : nat).
  (* the fetch, while a listing is iterated, of the page that starts at
     the version number [offset], counted from the newest *)

Record request := {
  url : string;
  data : list (string * json);
  timeout : Z;
}.

Record response := {
  status_code : Z;
  body : text;
}.

Inductive event :=
| EvPost (rq : request)
| EvFileWrite (path : string) (t : text)
| EvApi (c : api_call)
| EvSetTokens (v : json)        (* self._tokens = v *)
| EvSleep (secs : Z)
| EvLog (level msg : string)
| EvPrint (line : string)
| EvRequire (key : string).     (* ConfigManager.require(key) *)

Record world := {
  w_config : gmap string string;          (* what env-manager resolves *)
  w_files : gmap string bytes;            (* the local disk *)
  w_disk_fails : bool;                    (* mkdir / write_text raise OSError *)
  w_secrets : gmap string (list version); (* the Secret Manager project *)
  w_api_fault : api_call -> option exn;    (* what a call raises, if it fails *)
  w_endpoint : nat -> request -> option response; (* n-th POST's answer *)
  w_posts : nat;                          (* POSTs made so far *)
  w_clock : Z;                            (* int(time.time()) *)
  w_sleep_max : Z;                        (* longest sleep the platform accepts *)
  w_stdin : string;                       (* the line input() will read *)
  w_trace : list event;                   (* what happened, oldest first *)
}.

Definition set_files (f : gmap string bytes) (w : world) : world :=
  {| w_config := w_config w; w_files := f; w_disk_fails := w_disk_fails w;
     w_secrets := w_secrets w; w_api_fault := w_api_fault w;
     w_endpoint := w_endpoint w; w_posts := w_posts w; w_clock := w_clock w;
     w_sleep_max := w_sleep_max w; w_stdin := w_stdin w; w_trace := w_trace w |}.

Definition set_secrets (s : gmap string (list version)) (w : world) : world :=
  {| w_config := w_config w; w_files := w_files w; w_disk_fails := w_disk_fails w;
     w_secrets := s; w_api_fault := w_api_fault w;
     w_endpoint := w_endpoint w; w_posts := w_posts w; w_clock := w_clock w;
     w_sleep_max := w_sleep_max w; w_stdin := w_stdin w; w_trace := w_trace w |}.

Definition set_posts (n : nat) (w : world) : world :=
  {| w_config := w_config w; w_files := w_files w; w_disk_fails := w_disk_fails w;
     w_secrets := w_secrets w; w_api_fault := w_api_fault w;
     w_endpoint := w_endpoint w; w_posts := n; w_clock := w_clock w;
     w_sleep_max := w_sleep_max w; w_stdin := w_stdin w; w_trace := w_trace w |}.

Definition set_clock (t : Z) (w : world) : world :=
  {| w_config := w_config w; w_files := w_files w; w_disk_fails := w_disk_fails w;
     w_secrets := w_secrets w; w_api_fault := w_api_fault w;
     w_endpoint := w_endpoint w; w_posts := w_posts w; w_clock := t;
     w_sleep_max := w_sleep_max w; w_stdin := w_stdin w; w_trace := w_trace w |}.

Definition set_trace (t : list event) (w : world) : world :=
  {| w_config := w_config w; w_files := w_files w; w_disk_fails := w_disk_fails w;
     w_secrets := w_secrets w; w_api_fault := w_api_fault w;
     w_endpoint := w_endpoint w; w_posts := w_posts w; w_clock := w_clock w;
     w_sleep_max := w_sleep_max w; w_stdin := w_stdin w; w_trace := t |}.

(** *** Library calls over the world *)

Definition emit (e : event) : M world unit :=
  modify (fun w => set_trace (w_trace w ++ [e]) w).

Definition log (level msg : string) : M world unit := emit (EvLog level msg).

Definition print (line : string) : M world unit := emit (EvPrint line).

Definition input : M world string := fun w => (Ok (w_stdin w), w).

(** [int(time.time())].  The clock of the model is moved by sleeping only:
    the time the calls themselves take is not modelled. *)
Definition time_time : M world Z := fun w => (Ok (w_clock w), w).

(** [time.sleep(secs)] refuses a negative length (ValueError) and one too
    long for the platform's clock (OverflowError). *)
Definition time_sleep (secs : Z) : M world unit :=
  if secs <? 0 then raise ValueError
  else
    w <- get_state ;;
    if w_sleep_max w <? secs then raise OverflowError
    else emit (EvSleep secs) ;; modify (fun w => set_clock (w_clock w + secs) w).

(** [Path.exists()], for a path that can be examined: the OSError it
    re-raises when [stat] fails for another reason than the file not being
    there (a name that is too long, a directory that may not be searched)
    is outside the model. *)
Definition path_exists (path : string) : M world bool :=
  fun w => (Ok (bool_decide (is_Some (w_files w !! path))), w).

Definition read_text (path : string) : M world text :=
  fun w => match w_files w !! path with
           | None => (Raise OSError, w)
           | Some b => (decode b, w)
           end.

Definition mkdir_parents (path : string) : M world unit :=
  fun w => if w_disk_fails w then (Raise OSError, w) else (Ok tt, w).

Definition write_text (path : string) (t : text) : M world unit :=
  emit (EvFileWrite path t) ;;
  fun w => if w_disk_fails w then (Raise OSError, w)
           else (Ok tt, set_files (<[path := encode t]> (w_files w)) w).

Definition requests_post (rq : request) : M world response :=
  emit (EvPost rq) ;;
  fun w => let w' := set_posts (S (w_posts w)) w in
           match w_endpoint w (w_posts w) rq with
           | None => (Raise RequestException, w')
           | Some r => (Ok r, w')
           end.

(** [Response.raise_for_status]: HTTPError on a 4xx or 5xx status. *)
Definition raise_for_status {S} (r : response) : M S unit :=
  if (400 <=? status_code r) && (status_code r <? 600) then raise HTTPError
  else ret tt.

Definition response_json {S} (r : response) : M S json :=
  lift_result (json_loads (body r)).

(** *** env-manager *)

Module ConfigManager.

Abbreviation t := (gmap string string).

Definition require (cfg : t) (key : string) : M world string :=
  emit (EvRequire key) ;;
  match cfg !! key with
  | Some v => ret v
  | None => raise (ConfigError key)
  end.

Definition get (cfg : t) (key : string) (default : json) : json :=
  match cfg !! key with
  | Some v => JStr v
  | None => default
  end.

End ConfigManager.

(** [config_loader.load_config]: a fresh ConfigManager on every call. *)
Definition load_config : M world ConfigManager.t :=
  fun w => (Ok (w_config w), w).

(** *** The Secret Manager service, as the client library exposes it *)

Module SecretManagerServiceClient.

Definition secret_path (project secret : string) : string :=
  "projects/" +:+ project +:+ "/secrets/" +:+ secret.

(** Every call is recorded, then fails if the environment says so: with
    a [GoogleAPICallError], or with an exception of another class (a
    [RetryError], an error of the transport). *)
Definition call {A} (c : api_call) (k : M world A) : M world A :=
  emit (EvApi c) ;;
  fun w => match w_api_fault w c with
           | Some e => (Raise e, w)
           | None => k w
           end.

Definition get_secret (name : string) : M world unit :=
  call (GetSecret name)
    (fun w => match w_secrets w !! name with
              | Some _ => (Ok tt, w)
              | None => (Raise (GoogleAPICallError NotFound), w)
              end).

Definition create_secret (parent secret_id : string) : M world unit :=
  call (CreateSecret parent secret_id)
    (fun w => let name := parent +:+ "/secrets/" +:+ secret_id in
              match w_secrets w !! name with
              | Some _ => (Raise (GoogleAPICallError AlreadyExists), w)
              | None => (Ok tt, set_secrets (<[name := []]> (w_secrets w)) w)
              end).

Definition add_secret_version (parent : string) (payload : bytes)
    : M world version_name :=
  call (AddSecretVersion parent)
    (fun w => match w_secrets w !! parent with
              | None => (Raise (GoogleAPICallError NotFound), w)
              | Some vs =>
                  let v := {| v_name := VersionPath parent (S (length vs));
                              v_state := ENABLED; v_data := payload |} in
                  (Ok (v_name v), set_secrets (<[parent := v :: vs]> (w_secrets w)) w)
              end).

(** What [list_secret_versions] returns: a pager.  The call brings the
    first page; iterating the pager fetches the later ones, and such a
    fetch may fail.  [items] are the versions the iteration yields and
    [broken] the exception that then ends it, if a fetch fails. *)
Record pager := {
  items : list version;
  broken : option exn;
}.

(** The first of the [n] offsets from [offset] on at which [fault] has an
    exception. *)
Fixpoint page_break (fault : nat -> option exn) (offset n : nat) : option (nat * exn) :=
  match n with
  | O => None
  | S n' =>
      match fault offset with
      | Some e => Some (offset, e)
      | None => page_break fault (S offset) n'
      end
  end.

(** The pager over the versions [vs] of [parent]: the newest version is
    on the first page; any later one may need a fetch. *)
Definition paged (w : world) (parent : string) (vs : list version) : pager :=
  match page_break (fun i => w_api_fault w (ListSecretVersionsPage parent i))
          1 (length vs - 1) with
  | None => {| items := vs; broken := None |}
  | Some (i, e) => {| items := take i vs; broken := Some e |}
  end.

Definition list_secret_versions (parent : string) : M world pager :=
  call (ListSecretVersions parent)
    (fun w => match w_secrets w !! parent with
              | None => (Raise (GoogleAPICallError NotFound), w)
              | Some vs => (Ok (paged w parent vs), w)
              end).

Definition disable_in (name : version_name) (vs : list version) : list version :=
  map (fun v => if decide (v_name v = name)
                then {| v_name := v_name v; v_state := DISABLED; v_data := v_data v |}
                else v) vs.

Definition secret_of (name : version_name) : string :=
  match name with VersionPath s _ => s end.

Definition find_version (name : version_name) (vs : list version) : option version :=
  find (fun v => bool_decide (v_name v = name)) vs.

(** The version a reference resolves to: [latest] is the newest one. *)
Definition resolve (name : version_ref) (w : world) : option version :=
  match name with
  | Named n => w_secrets w !! secret_of n ≫= find_version n
  | LatestPath s => w_secrets w !! s ≫= head
  end.

Definition disable_secret_version (name : version_name) : M world unit :=
  call (DisableSecretVersion name)
    (fun w => match w_secrets w !! secret_of name ≫= find_version name with
              | None => (Raise (GoogleAPICallError NotFound), w)
              | Some v =>
                  match v_state v with
                  | DESTROYED => (Raise (GoogleAPICallError FailedPrecondition), w)
                  | _ => (Ok tt, set_secrets
                            (alter (disable_in name) (secret_of name) (w_secrets w)) w)
                  end
              end).

Definition access_secret_version (name : version_ref) : M world bytes :=
  call (AccessSecretVersion name)
    (fun w => match resolve name w with
              | None => (Raise (GoogleAPICallError NotFound), w)
              | Some v =>
                  match v_state v with
                  | ENABLED => (Ok (v_data v), w)
                  | _ => (Raise (GoogleAPICallError FailedPrecondition), w)
                  end
              end).

End SecretManagerServiceClient.

(** ** gcp_secret_storage.py *)

Module GCPSecretStorage.
Import SecretManagerServiceClient.

Record t := { _project_id : string }.

Definition __init__ {S} (project_id : string) : M S t :=
  if String.eqb project_id "" then raise ValueError
  else ret {| _project_id := project_id |}.

Definition _secret_path (self : t) (secret_name : string) : string :=
  secret_path (_project_id self) secret_name.

Definition _latest_version_path (self : t) (secret_name : string) : version_ref :=
  LatestPath (_secret_path self secret_name).

Definition is_NotFound (e : exn) : bool :=
  match e with GoogleAPICallError NotFound => true | _ => false end.

Definition is_GoogleAPICallError (e : exn) : bool :=
  match e with GoogleAPICallError _ => true | _ => false end.

Definition ensure_secret (self : t) (secret_name : string) : M world unit :=
  try_except (get_secret (_secret_path self secret_name))
    is_NotFound
    (fun _ => create_secret ("projects/" +:+ _project_id self) secret_name).

Definition _disable_prior_versions (self : t) (secret_name : string)
    (keep_version : version_name) : M world unit :=
  let parent := _secret_path self secret_name in
  listed <- try_except (versions <- list_secret_versions parent ;; ret (Some versions))
              is_GoogleAPICallError (fun _ => ret None) ;;
  match listed with
  | None => ret tt
  | Some versions =>
      (* [for version in versions:], outside the [try] *)
      for_each (items versions) (fun version =>
        if decide (v_name version = keep_version) then ret tt
        else if decide (v_state version = ENABLED) then
          try_except (disable_secret_version (v_name version))
            is_GoogleAPICallError (fun _ => ret tt)
        else ret tt) ;;
      match broken versions with
      | None => ret tt
      | Some e => raise e
      end
  end.

Definition write_secret (self : t) (secret_name : string) (payload : bytes)
    : M world version_name :=
  ensure_secret self secret_name ;;
  response_name <- add_secret_version (_secret_path self secret_name) payload ;;
  _disable_prior_versions self secret_name response_name ;;
  ret response_name.

Definition read_secret (self : t) (secret_name : string) : M world (option text) :=
  response <- try_except
                (d <- access_secret_version (_latest_version_path self secret_name) ;;
                 ret (Some d))
                is_NotFound (fun _ => ret None) ;;
  match response with
  | None => ret None
  | Some d => payload <- lift_result (decode d) ;; ret (Some payload)
  end.

End GCPSecretStorage.

(** ** rotator.py *)

Definition DEFAULT_ROTATION_INTERVAL : Z := 4 * 60 * 60.
Definition TOKEN_ENDPOINT : string := "https://api.mercadolibre.com/oauth/token".

Definition catch_all (e : exn) : bool := true.

Definition is_JSONDecodeError (e : exn) : bool :=
  match e with JSONDecodeError => true | _ => false end.

Definition is_HTTPError (e : exn) : bool :=
  match e with HTTPError => true | _ => false end.

(** [Path(x).expanduser().resolve()], with paths kept as given. *)
Definition Path {S} (x : json) : M S string :=
  match x with
  | JStr s => ret s
  | _ => raise TypeError
  end.

Module TokenRotator.

Record t := {
  _config : ConfigManager.t;
  _app_id : string;
  _client_secret : string;
  _tokens_secret_name : string;
  _project_id : string;
  _token_file : string;
  rotation_interval_seconds : Z;
  _secret_storage : GCPSecretStorage.t;
  _tokens : json;
}.

Definition set_tokens (v : json) (self : t) : t :=
  {| _config := _config self; _app_id := _app_id self;
     _client_secret := _client_secret self;
     _tokens_secret_name := _tokens_secret_name self;
     _project_id := _project_id self; _token_file := _token_file self;
     rotation_interval_seconds := rotation_interval_seconds self;
     _secret_storage := _secret_storage self; _tokens := v |}.

(** Methods run over the object and the world. *)
Definition state : Type := t * world.

Definition env {A} (m : M world A) : M state A :=
  fun '(self, w) => let '(r, w') := m w in (r, (self, w')).

Definition self_ : M state t := fun '(self, w) => (Ok self, (self, w)).

(** [self._tokens = v]. *)
Definition assign_tokens (v : json) : M state unit :=
  env (emit (EvSetTokens v)) ;;
  modify (fun '(self, w) => (set_tokens v self, w)).

Definition _load_tokens_from_file (self : t) : M world json :=
  present <- path_exists (_token_file self) ;;
  if negb present then ret (JDict ∅)
  else
    try_except
      (txt <- read_text (_token_file self) ;; lift_result (json_loads txt))
      catch_all
      (fun _ => log "WARNING" "Failed to read tokens from %s: %s" ;; ret (JDict ∅)).

Definition _load_tokens_from_secret (self : t) : M world json :=
  payload <- GCPSecretStorage.read_secret (_secret_storage self)
               (_tokens_secret_name self) ;;
  match payload with
  | None | Some Blank => ret (JDict ∅)
  | Some txt =>
      try_except (lift_result (json_loads txt))
        is_JSONDecodeError
        (fun _ => log "ERROR" "Secret %s exists but is not valid JSON: %s" ;;
                  ret (JDict ∅))
  end.

Definition _write_tokens_file (self : t) (token_data : json) : M world unit :=
  mkdir_parents (_token_file self) ;;
  write_text (_token_file self) (json_dumps token_data).

Definition _bootstrap_tokens (self : t) : M world json :=
  tokens <- _load_tokens_from_file self ;;
  if truthy tokens then ret tokens
  else
    tokens <- _load_tokens_from_secret self ;;
    if truthy tokens then
      _write_tokens_file self tokens ;;
      ret tokens
    else
      raise (RuntimeError
        "No existing tokens found. Run the initializer to obtain the first token set.").

Definition __init__ : M world t :=
  config <- load_config ;;
  app_id <- ConfigManager.require config "MELI_APP_ID" ;;
  client_secret <- ConfigManager.require config "MELI_CLIENT_SECRET" ;;
  tokens_secret_name <- ConfigManager.require config "MELI_TOKENS_SECRET_NAME" ;;
  project_id <- ConfigManager.require config "GCP_PROJECT_ID" ;;
  token_file <- Path (ConfigManager.get config "MELI_TOKEN_FILE" (JStr "tokens.json")) ;;
  interval <- lift_result (py_int (ConfigManager.get config "ROTATION_INTERVAL_SECONDS"
                                     (JInt DEFAULT_ROTATION_INTERVAL))) ;;
  secret_storage <- GCPSecretStorage.__init__ project_id ;;
  let self := {| _config := config; _app_id := app_id;
                 _client_secret := client_secret;
                 _tokens_secret_name := tokens_secret_name;
                 _project_id := project_id; _token_file := token_file;
                 rotation_interval_seconds := interval;
                 _secret_storage := secret_storage; _tokens := JNull |} in
  tokens <- _bootstrap_tokens self ;;
  ret (set_tokens tokens self).

(** The POST that [_request_refresh] sends. *)
Definition refresh_request (self : t) (refresh_token : json) : request :=
  {| url := TOKEN_ENDPOINT;
     data := [("grant_type", JStr "refresh_token");
              ("client_id", JStr (_app_id self));
              ("client_secret", JStr (_client_secret self));
              ("refresh_token", refresh_token)];
     timeout := 15 |}.

Definition _request_refresh (self : t) (refresh_token : json) : M world json :=
  response <- requests_post (refresh_request self refresh_token) ;;
  try_except (raise_for_status response)
    is_HTTPError
    (fun _ => log "ERROR" "Refresh request failed: %s" ;;
              raise (RuntimeError "Token refresh failed")) ;;
  response_json response.

Definition refresh_once : M state json :=
  self <- self_ ;;
  held <- lift_result (dict_get (_tokens self) "refresh_token") ;;
  refresh_token <- or_else held
    (v <- env (ConfigManager.require (_config self) "MELI_REFRESH_TOKEN") ;; ret (JStr v)) ;;
  payload <- env (_request_refresh self refresh_token) ;;
  now <- env time_time ;;
  access_token <- lift_result (dict_get payload "access_token") ;;
  new_refresh_token <- lift_result (dict_get payload "refresh_token") ;;
  token_type <- lift_result (dict_get payload "token_type") ;;
  scope <- lift_result (dict_get payload "scope") ;;
  expires_in_field <- lift_result (dict_get payload "expires_in") ;;
  let token_data : gmap string json :=
    <["updated_at" := JInt now]>
    (<["expires_in" := expires_in_field]>
    (<["scope" := scope]>
    (<["token_type" := token_type]>
    (<["refresh_token" := py_or new_refresh_token refresh_token]>
    (<["access_token" := access_token]> ∅))))) in
  expires_in <- lift_result (dict_get payload "expires_in") ;;
  token_data <-
    (if truthy expires_in then
       n <- lift_result (py_int expires_in) ;;
       ret (<["expires_at" := JInt (now + n)]> token_data)
     else ret token_data) ;;
  if negb (truthy (default JNull (token_data !! "access_token"))) then
    raise (RuntimeError "No access_token returned by MercadoLibre")
  else
    assign_tokens (JDict token_data) ;;
    env (_write_tokens_file self (JDict token_data)) ;;
    env (GCPSecretStorage.write_secret (_secret_storage self)
           (_tokens_secret_name self) (encode (json_dumps (JDict token_data)))) ;;
    env (log "INFO"
      "Tokens refreshed; latest version enabled and prior versions disabled in GCP") ;;
    ret (JDict token_data).

(** [a or b] on integers. *)
Definition int_or (a b : Z) : Z := if a =? 0 then b else a.

(** [interval_seconds or self.rotation_interval_seconds or DEFAULT]. *)
Definition interval_of (self : t) (interval_seconds : option Z) : Z :=
  let rest := int_or (rotation_interval_seconds self) DEFAULT_ROTATION_INTERVAL in
  match interval_seconds with
  | Some n => int_or n rest
  | None => rest
  end.

(** One turn of the [while True] body of [run_forever]: [false] stands
    for leaving the turn through [continue]. *)
Definition cycle (interval : Z) : M state unit :=
  refreshed <- try_except (refresh_once ;; ret true)
                 catch_all
                 (fun _ => env (log "ERROR" "Token refresh failed: %s") ;;
                           env (time_sleep (Z.min 600 interval)) ;;
                           ret false) ;;
  if refreshed : bool then env (time_sleep interval) else ret tt.

(** [while True] cut after [turns] turns: [Ok] says the loop is still
    running, [Raise] that an exception left it. *)
Fixpoint loop (turns : nat) (interval : Z) : M state unit :=
  match turns with
  | O => ret tt
  | S n => cycle interval ;; loop n interval
  end.

Definition run_forever (turns : nat) (interval_seconds : option Z) : M state unit :=
  self <- self_ ;;
  loop turns (interval_of self interval_seconds).

(** Running a method of a rotator that the caller then drops. *)
Definition on {A} (self : t) (m : M state A) : M world A :=
  fun w => let '(r, (_, w')) := m (self, w) in (r, w').

End TokenRotator.

(** The module-level helpers of rotator.py. *)
Definition refresh_once : M world json :=
  rotator <- TokenRotator.__init__ ;;
  TokenRotator.on rotator TokenRotator.refresh_once.

Definition run_rotation_loop (turns : nat) (interval_seconds : option Z) : M world unit :=
  rotator <- TokenRotator.__init__ ;;
  TokenRotator.on rotator (TokenRotator.run_forever turns interval_seconds).

(** ** initializer.py *)

Definition AUTH_URL : string := "https://auth.mercadolibre.cl/authorization".

Definition build_auth_url (app_id redirect_uri : string) : string :=
  AUTH_URL +:+ "?response_type=code&client_id=" +:+ app_id
           +:+ "&redirect_uri=" +:+ redirect_uri.

Definition _write_tokens_file (token_file : string) (token_data : json) : M world unit :=
  mkdir_parents token_file ;;
  write_text token_file (json_dumps token_data).

(** [not auth_code] on an [Optional[str]]. *)
Definition not_str (s : option string) : bool :=
  match s with
  | None => true
  | Some s => String.eqb s ""
  end.

Definition bootstrap_tokens (auth_code : option string) : M world json :=
  config <- load_config ;;
  app_id <- ConfigManager.require config "MELI_APP_ID" ;;
  client_secret <- ConfigManager.require config "MELI_CLIENT_SECRET" ;;
  redirect_uri <- ConfigManager.require config "MELI_REDIRECT_URI" ;;
  tokens_secret_name <- ConfigManager.require config "MELI_TOKENS_SECRET_NAME" ;;
  project_id <- ConfigManager.require config "GCP_PROJECT_ID" ;;
  token_file_path <- Path (ConfigManager.get config "MELI_TOKEN_FILE" (JStr "tokens.json")) ;;
  let url := build_auth_url app_id redirect_uri in
  auth_code <-
    (if not_str auth_code then
       print "=== MercadoLibre OAuth Bootstrap ===" ;;
       print "1) Visita y autoriza en:" ;;
       print url ;;
       line <- input ;;
       ret (Some (strip line))
     else ret auth_code) ;;
  if not_str auth_code then
    raise (RuntimeError "No auth code provided; cannot bootstrap tokens.")
  else
    log "INFO" "Intercambiando code por tokens..." ;;
    response <- requests_post
      {| url := TOKEN_ENDPOINT;
         data := [("grant_type", JStr "authorization_code");
                  ("client_id", JStr app_id);
                  ("client_secret", JStr client_secret);
                  ("code", JStr (default "" auth_code));
                  ("redirect_uri", JStr redirect_uri)];
         timeout := 30 |} ;;
    try_except (raise_for_status response)
      is_HTTPError
      (fun _ => log "ERROR" "Exchange failed: %s" ;;
                raise (RuntimeError "Failed to exchange authorization code")) ;;
    tokens <- response_json response ;;
    _write_tokens_file token_file_path tokens ;;
    storage <- GCPSecretStorage.__init__ project_id ;;
    GCPSecretStorage.write_secret storage tokens_secret_name
      (encode (json_dumps tokens)) ;;
    log "INFO" "Tokens guardados en %s y sincronizados en GCP" ;;
    ret tokens.

(** ** token_access.py *)

Definition get_token_payload : M world json :=
  config <- load_config ;;
  secret_name <- ConfigManager.require config "MELI_TOKENS_SECRET_NAME" ;;
  project_id <- ConfigManager.require config "GCP_PROJECT_ID" ;;
  storage <- GCPSecretStorage.__init__ project_id ;;
  payload <- GCPSecretStorage.read_secret storage secret_name ;;
  match payload with
  | None | Some Blank =>
      raise (RuntimeError ("Secret '" +:+ secret_name +:+ "' not found in project '"
                             +:+ project_id +:+ "'"))
  | Some txt =>
      try_except (lift_result (json_loads txt))
        is_JSONDecodeError
        (fun _ => raise (RuntimeError ("Secret '" +:+ secret_name
                   +:+ "' contains invalid JSON; refresh the token first")))
  end.

Definition get_access_token : M world json :=
  data <- get_token_payload ;;
  token <- lift_result (dict_get data "access_token") ;;
  if negb (truthy token) then
    raise (RuntimeError "No access_token stored in Secret Manager")
  else ret token.

(** ** Concrete environments used by the examples below *)

Module Sample.

Definition config : gmap string string :=
  list_to_map [("MELI_APP_ID", "app-1"); ("MELI_CLIENT_SECRET", "hush");
               ("MELI_REDIRECT_URI", "https://example.org/cb");
               ("MELI_TOKENS_SECRET_NAME", "meli-tokens");
               ("GCP_PROJECT_ID", "proj")].

Definition secret : string := "projects/proj/secrets/meli-tokens".

Definition obj (fields : list (string * json)) : json := JDict (list_to_map fields).

(** An endpoint that gives every POST the same answer. *)
Definition answers (status : Z) (t : text) : nat -> request -> option response :=
  fun _ _ => Some {| status_code := status; body := t |}.

(** Attempt [0] is refused with [status], later ones get [t]. *)
Definition refuses_once (status : Z) (t : text) : nat -> request -> option response :=
  fun n _ => match n with
             | O => Some {| status_code := status; body := Blank |}
             | _ => Some {| status_code := 200; body := t |}
             end.

Definition no_fault : api_call -> option exn := fun _ => None.

Definition world_of (files : gmap string bytes) (secrets : gmap string (list version))
    (fault : api_call -> option exn)
    (endpoint : nat -> request -> option response) : world :=
  {| w_config := config; w_files := files; w_disk_fails := false;
     w_secrets := secrets; w_api_fault := fault; w_endpoint := endpoint;
     w_posts := 0; w_clock := 1700000000; w_sleep_max := 9223372036;
     w_stdin := ""; w_trace := [] |}.

Definition stored (n : nat) (st : version_state) (v : json) : version :=
  {| v_name := VersionPath secret n; v_state := st; v_data := Utf8 (Doc v) |}.

Definition rotator (tokens : json) : TokenRotator.t :=
  {| TokenRotator._config := config;
     TokenRotator._app_id := "app-1";
     TokenRotator._client_secret := "hush";
     TokenRotator._tokens_secret_name := "meli-tokens";
     TokenRotator._project_id := "proj";
     TokenRotator._token_file := "tokens.json";
     TokenRotator.rotation_interval_seconds := DEFAULT_ROTATION_INTERVAL;
     TokenRotator._secret_storage := {| GCPSecretStorage._project_id := "proj" |};
     TokenRotator._tokens := tokens |}.

Definition old_tokens : json :=
  obj [("access_token", JStr "A1"); ("refresh_token", JStr "R")].

Definition seeded : gmap string (list version) :=
  {[ secret := [stored 2 ENABLED old_tokens; stored 1 ENABLED old_tokens] ]}.

(** The answer of the provider in the specification's scenario. *)
Definition fresh_answer : json :=
  obj [("access_token", JStr "A2"); ("token_type", JStr "bearer");
       ("expires_in", JInt 21600)].

Definition world0 : world :=
  world_of ∅ seeded no_fault (answers 200 (Doc fresh_answer)).

Definition with_broken_disk (w : world) : world :=
  {| w_config := w_config w; w_files := w_files w; w_disk_fails := true;
     w_secrets := w_secrets w; w_api_fault := w_api_fault w;
     w_endpoint := w_endpoint w; w_posts := w_posts w; w_clock := w_clock w;
     w_sleep_max := w_sleep_max w; w_stdin := w_stdin w; w_trace := w_trace w |}.

(** The refresh cycle of the scenario, run. *)
Definition cycle0 : result json * TokenRotator.state :=
  TokenRotator.refresh_once (rotator old_tokens, world0).

Definition value {A} (d : A) (r : result A) : A :=
  match r with Ok a => a | Raise _ => d end.

(** A rotator whose configuration also has the fallback refresh token. *)
Definition fallback_rotator (tokens : json) : TokenRotator.t :=
  let r := rotator tokens in
  {| TokenRotator._config := <["MELI_REFRESH_TOKEN" := "R0"]> config;
     TokenRotator._app_id := TokenRotator._app_id r;
     TokenRotator._client_secret := TokenRotator._client_secret r;
     TokenRotator._tokens_secret_name := TokenRotator._tokens_secret_name r;
     TokenRotator._project_id := TokenRotator._project_id r;
     TokenRotator._token_file := TokenRotator._token_file r;
     TokenRotator.rotation_interval_seconds := TokenRotator.rotation_interval_seconds r;
     TokenRotator._secret_storage := TokenRotator._secret_storage r;
     TokenRotator._tokens := tokens |}.

Definition storage : GCPSecretStorage.t := {| GCPSecretStorage._project_id := "proj" |}.







(** The endpoint refuses the first refresh with a 500 and answers the next. *)
Definition flaky_world : world :=
  world_of ∅ seeded no_fault (refuses_once 500 (Doc fresh_answer)).

End Sample.

(** ** Vocabulary of the properties *)

(** The three steps of a refresh cycle whose order the specification fixes. *)
Inductive step_kind := FileCacheWrite | SecretStoreWrite | MemoryCommit.

Definition kind_of (e : event) : option step_kind :=
  match e with
  | EvFileWrite _ _ => Some FileCacheWrite
  | EvApi (AddSecretVersion _) => Some SecretStoreWrite
  | EvSetTokens _ => Some MemoryCommit
  | _ => None
  end.

(** The persistence steps of a trace, in the order they happened. *)
Definition persist_order (tr : list event) : list step_kind := omap kind_of tr.


(** The JSON document some bytes hold, [{}] when they hold none: what the
    loaders make of a file or payload. *)
Definition document (b : bytes) : json :=
  match b with
  | Utf8 (Doc v) => v
  | _ => JDict ∅
  end.

Definition cache_content (w : world) (path : string) : json :=
  from_option document (JDict ∅) (w_files w !! path).

(** The version the [latest] alias of a secret resolves to. *)
Definition latest_version (w : world) (parent : string) : option version :=
  w_secrets w !! parent ≫= head.




(** The sleeps a trace shows, each with its length in seconds. *)
Definition slept (tr : list event) : list Z :=
  omap (fun e => match e with EvSleep secs => Some secs | _ => None end) tr.

(** The requests a trace shows as posted to the token endpoint. *)
Definition posted (tr : list event) : list request :=
  omap (fun e => match e with EvPost rq => Some rq | _ => None end) tr.


Import SecretManagerServiceClient.

(** The body of the loop of [_disable_prior_versions]. *)
Definition disable_unless_kept (keep_version : version_name) (version : version)
    : M world unit :=
  if decide (v_name version = keep_version) then ret tt
  else if decide (v_state version = ENABLED) then
    try_except (disable_secret_version (v_name version))
      GCPSecretStorage.is_GoogleAPICallError (fun _ => ret tt)
  else ret tt.

(** How a version may change while prior versions are disabled: only its
    state, only to DISABLED, and never for the version to keep. *)
Definition evolve (keep : version_name) (a b : version) : Prop :=
  v_name b = v_name a /\ v_data b = v_data a
  /\ (v_state b = v_state a \/ v_state b = DISABLED /\ v_name a <> keep).

Definition evolves (keep : version_name) : relation world :=
  fun w w' =>
    w_api_fault w' = w_api_fault w
    /\ forall s vs, w_secrets w !! s = Some vs ->
         exists vs', w_secrets w' !! s = Some vs' /\ Forall2 (evolve keep) vs vs'.

(** Every version called [n] of its secret is disabled. *)
Definition all_disabled (n : version_name) (w : world) : Prop :=
  exists vs, w_secrets w !! secret_of n = Some vs
             /\ forall x, x ∈ vs -> v_name x = n -> v_state x = DISABLED.

(** Disabling [n] can succeed: the call is not refused, a version called [n]
    exists and none of that name is destroyed. *)
Definition can_disable (n : version_name) (w : world) : Prop :=
  w_api_fault w (DisableSecretVersion n) = None
  /\ exists vs, w_secrets w !! secret_of n = Some vs
                /\ (exists x, x ∈ vs /\ v_name x = n)
                /\ forall x, x ∈ vs -> v_name x = n -> v_state x <> DESTROYED.

(** A run [m] relates the state it starts from to the one it ends in by [R],
    whatever it returns or raises. *)
Definition keeps {S A} (R : relation S) (m : M S A) : Prop :=
  forall s r s', m s = (r, s') -> R s s'.

(** An observation of the world that a run leaves as it was. *)
Definition same {X} (f : world -> X) : relation world :=
  fun w w' => f w' = f w.

(** The trace only grows, by events that satisfy [P]. *)
Definition grows (P : event -> Prop) : relation world :=
  fun w w' => exists seg, w_trace w' = w_trace w ++ seg /\ Forall P seg.

(** The part of the world no call of the program changes. *)
Definition fixed : relation world :=
  fun w w' => w_config w' = w_config w /\ w_disk_fails w' = w_disk_fails w
              /\ w_api_fault w' = w_api_fault w /\ w_endpoint w' = w_endpoint w
              /\ w_stdin w' = w_stdin w /\ w_sleep_max w' = w_sleep_max w.

(** A relation on worlds, seen from a rotator method. *)
Definition in_env (R : relation world) : relation TokenRotator.state :=
  fun s s' => R s.2 s'.2.

Definition same_self : relation TokenRotator.state :=
  fun s s' => s'.1 = s.1.

Definition quiet (e : event) : Prop := kind_of e = None.

Definition api_only (e : event) : Prop :=
  match e with EvApi _ => True | _ => False end.

(** The API calls other than the one that adds a version. *)
Definition housekeeping (e : event) : Prop :=
  match e with
  | EvApi (AddSecretVersion _) => False
  | EvApi _ => True
  | _ => False
  end.


(** The versions a secret has, none when it does not exist. *)
Definition versions_of (w : world) (parent : string) : list version :=
  default [] (w_secrets w !! parent).

(** Events other than a sleep. *)
Definition no_sleep (e : event) : Prop :=
  match e with EvSleep _ => False | _ => True end.

(** Events other than a POST to the token endpoint. *)
Definition no_post (e : event) : Prop :=
  match e with EvPost _ => False | _ => True end.

(** The events a token reader leaves: configuration lookups and the read
    of the secret. *)
Definition reader_event (e : event) : Prop :=
  match e with
  | EvRequire _ | EvApi (AccessSecretVersion _) => True
  | _ => False
  end.

(** The settings [TokenRotator.__init__] requires, in the order it asks
    for them. *)
Definition required_keys : list string :=
  ["MELI_APP_ID"; "MELI_CLIENT_SECRET"; "MELI_TOKENS_SECRET_NAME"; "GCP_PROJECT_ID"].

(** A configuration lookup. *)
Definition is_require (e : event) : Prop :=
  match e with EvRequire _ => True | _ => False end.

(** The POST with which [bootstrap_tokens] exchanges the authorization
    code. *)
Definition exchange_request (app_id client_secret code redirect_uri : string) : request :=
  {| url := TOKEN_ENDPOINT;
     data := [("grant_type", JStr "authorization_code");
              ("client_id", JStr app_id);
              ("client_secret", JStr client_secret);
              ("code", JStr code);
              ("redirect_uri", JStr redirect_uri)];
     timeout := 30 |}.

(** The authorization code [bootstrap_tokens] works with: the one passed
    in, or the stripped line read from the terminal when none (or an empty
    one) is passed. *)
Definition code_of (auth_code : option string) (w : world) : string :=
  if not_str auth_code then strip (w_stdin w) else default "" auth_code.

(** What [print] leaves in the trace. *)
Definition is_prompt (e : event) : Prop :=
  match e with EvPrint _ => True | _ => False end.

(** Further concrete runs, over the environments of [Sample]. *)
Module Scenario.

Definition with_config (cfg : gmap string string) (w : world) : world :=
  {| w_config := cfg; w_files := w_files w; w_disk_fails := w_disk_fails w;
     w_secrets := w_secrets w; w_api_fault := w_api_fault w;
     w_endpoint := w_endpoint w; w_posts := w_posts w; w_clock := w_clock w;
     w_sleep_max := w_sleep_max w; w_stdin := w_stdin w; w_trace := w_trace w |}.

(** Nothing stored anywhere; the provider answers every POST with [t]. *)
Definition empty_world (status : Z) (t : text) : world :=
  Sample.world_of ∅ ∅ Sample.no_fault (Sample.answers status t).

Definition payload : bytes := encode (json_dumps Sample.fresh_answer).

(** The secret of the scenario, written once more. *)
Definition written : result version_name * world :=
  GCPSecretStorage.write_secret Sample.storage "meli-tokens" payload Sample.world0.

Definition ensured : result unit * world :=
  GCPSecretStorage.ensure_secret Sample.storage "meli-tokens" Sample.world0.

Definition cached : result unit * world :=
  TokenRotator._write_tokens_file (Sample.rotator Sample.old_tokens)
    Sample.fresh_answer Sample.world0.

(** A first bootstrap, with the code given on the command line. *)
Definition bootstrapped : result json * world :=
  bootstrap_tokens (Some "code-1") (empty_world 200 (Doc Sample.fresh_answer)).

Definition looped : result unit * TokenRotator.state :=
  TokenRotator.run_forever 2 None (Sample.rotator Sample.old_tokens, Sample.flaky_world).

End Scenario.

(** ** Reasoning about runs *)

#[global] Instance same_preorder {X} (f : world -> X) : PreOrder (same f).
Proof. split; unfold same; [intros w; reflexivity | intros a b c H1 H2; congruence]. Qed.

#[global] Instance grows_preorder P : PreOrder (grows P).
Proof.
  split.
  - intros w. exists []. by rewrite app_nil_r.
  - intros a b c (s1 & E1 & F1) (s2 & E2 & F2). exists (s1 ++ s2).
    rewrite E2, E1, <- app_assoc. split; [done | by apply Forall_app].
Qed.

#[global] Instance fixed_preorder : PreOrder fixed.
Proof.
  split; unfold fixed.
  - intros w. repeat split.
  - intros a b c H1 H2. destruct_and!. repeat split; congruence.
Qed.

#[global] Instance in_env_preorder R `{!PreOrder R} : PreOrder (in_env R).
Proof.
  split; unfold in_env.
  - intros s. reflexivity.
  - intros a b c H1 H2. by etrans.
Qed.

#[global] Instance same_self_preorder : PreOrder same_self.
Proof. split; unfold same_self; [intros s; reflexivity | intros a b c; congruence]. Qed.

Section Keeps.
Context {S : Type} (R : relation S) `{!PreOrder R}.

Lemma keeps_ret {A} (a : A) : keeps R (ret a).
Proof. intros s r s' [= <- <-]. reflexivity. Qed.

Lemma keeps_raise {A} e : keeps R (@raise S A e).
Proof. intros s r s' [= <- <-]. reflexivity. Qed.

Lemma keeps_lift_result {A} (x : result A) : keeps R (lift_result x).
Proof. intros s r s' [= <- <-]. reflexivity. Qed.

Lemma keeps_get_state : keeps R (@get_state S).
Proof. intros s r s' [= <- <-]. reflexivity. Qed.

Lemma keeps_bind {A B} (m : M S A) (k : A -> M S B) :
  keeps R m -> (forall a, keeps R (k a)) -> keeps R (bind m k).
Proof.
  intros Hm Hk s r s'. unfold bind. destruct (m s) as [[a|e] s1] eqn:E.
  - intros Hr. etrans; [exact (Hm _ _ _ E) | exact (Hk _ _ _ _ Hr)].
  - intros [= <- <-]. exact (Hm _ _ _ E).
Qed.

Lemma keeps_try_except {A} (m : M S A) catches handler :
  keeps R m -> (forall e, keeps R (handler e)) -> keeps R (try_except m catches handler).
Proof.
  intros Hm Hh s r s'. unfold try_except. destruct (m s) as [[a|e] s1] eqn:E.
  - intros [= <- <-]. exact (Hm _ _ _ E).
  - destruct (catches e).
    + intros Hr. etrans; [exact (Hm _ _ _ E) | exact (Hh _ _ _ _ Hr)].
    + intros [= <- <-]. exact (Hm _ _ _ E).
Qed.

Lemma keeps_or_else x (y : M S json) : keeps R y -> keeps R (or_else x y).
Proof. intros Hy. unfold or_else. destruct (truthy x); [apply keeps_ret | exact Hy]. Qed.

Lemma keeps_for_each {A} (xs : list A) body :
  (forall x, keeps R (body x)) -> keeps R (for_each xs body).
Proof.
  intros Hb. induction xs as [|x xs IH]; simpl.
  - apply keeps_ret.
  - apply keeps_bind; [apply Hb | intros _; exact IH].
Qed.
End Keeps.

Lemma keeps_env (R : relation world) {A} (m : M world A) :
  keeps R m -> keeps (in_env R) (TokenRotator.env m).
Proof.
  intros Hm [self w] r [self' w']. unfold TokenRotator.env, in_env. simpl.
  destruct (m w) as [r1 w1] eqn:E. intros [= <- <- <-]. exact (Hm _ _ _ E).
Qed.

Lemma keeps_env_self {A} (m : M world A) : keeps same_self (TokenRotator.env m).
Proof.
  intros [self w] r [self' w']. unfold TokenRotator.env, same_self. simpl.
  destruct (m w) as [r1 w1]. by intros [= <- <- <-].
Qed.

Lemma keeps_call (R : relation world) `{!PreOrder R} {A} c (k : M world A) :
  keeps R (emit (EvApi c)) -> keeps R k -> keeps R (SecretManagerServiceClient.call c k).
Proof.
  intros He Hk. unfold SecretManagerServiceClient.call.
  apply keeps_bind; [done | exact He |]. intros _ w r w'.
  destruct (w_api_fault w c); [intros [= <- <-]; reflexivity | apply Hk].
Qed.

Lemma grows_emit (P : event -> Prop) e : P e -> keeps (grows P) (emit e).
Proof.
  intros HP w r w' [= <- <-]. exists [e]. split; [done | by constructor].
Qed.

Lemma same_emit {X} (f : world -> X) e :
  (forall t w, f (set_trace t w) = f w) -> keeps (same f) (emit e).
Proof. intros Hf w r w' [= <- <-]. apply Hf. Qed.

Lemma fixed_emit e : keeps fixed (emit e).
Proof. intros w r w' [= <- <-]. repeat split. Qed.

(** Unfolds the program's composite operations down to the monad and the
    library calls. *)
Ltac unfold_ops :=
  unfold GCPSecretStorage.write_secret, GCPSecretStorage.ensure_secret,
    GCPSecretStorage._disable_prior_versions, GCPSecretStorage.read_secret,
    GCPSecretStorage.__init__,
    SecretManagerServiceClient.get_secret, SecretManagerServiceClient.create_secret,
    SecretManagerServiceClient.add_secret_version,
    SecretManagerServiceClient.list_secret_versions,
    SecretManagerServiceClient.disable_secret_version,
    SecretManagerServiceClient.access_secret_version,
    TokenRotator._request_refresh, TokenRotator._write_tokens_file,
    TokenRotator._load_tokens_from_file, TokenRotator._load_tokens_from_secret,
    _write_tokens_file, ConfigManager.require, load_config, Path,
    log, print, input, write_text, mkdir_parents, read_text, path_exists,
    requests_post, raise_for_status, response_json, time_sleep, time_time, modify.

(** A state function that touches neither the trace nor the observed part. *)
Ltac silent :=
  let H := fresh in
  intros ? ? ? H; repeat case_match; simplify_eq;
  first [ reflexivity
        | by (exists []; rewrite app_nil_r)
        | by repeat split ].

Ltac keeps_emit :=
  first [ apply fixed_emit
        | apply same_emit; reflexivity
        | apply grows_emit; first [ exact I | reflexivity ] ].

Ltac keeps_step :=
  first
    [ apply keeps_ret; tc_solve
    | apply keeps_raise; tc_solve
    | apply keeps_lift_result; tc_solve
    | apply keeps_env
    | apply keeps_env_self
    | keeps_emit
    | apply keeps_bind; [tc_solve | | intros ?]
    | apply keeps_try_except; [tc_solve | | intros ?]
    | apply keeps_or_else; [tc_solve |]
    | apply keeps_for_each; [tc_solve | intros ?]
    | apply keeps_call; [tc_solve | |]
    | match goal with
      | |- keeps _ (match ?x with _ => _ end) => destruct x
      end
    | progress unfold_ops
    | solve [silent] ].

Ltac keeps_auto := repeat keeps_step.

Section StorageFrames.
Variables (self : GCPSecretStorage.t) (name : string).

Lemma write_secret_api_only payload :
  keeps (grows api_only) (GCPSecretStorage.write_secret self name payload).
Proof. keeps_auto. Qed.

Lemma write_secret_files payload :
  keeps (same w_files) (GCPSecretStorage.write_secret self name payload).
Proof. keeps_auto. Qed.

Lemma write_secret_clock payload :
  keeps (same w_clock) (GCPSecretStorage.write_secret self name payload).
Proof. keeps_auto. Qed.

Lemma write_secret_fixed payload :
  keeps fixed (GCPSecretStorage.write_secret self name payload).
Proof. keeps_auto. Qed.

Lemma ensure_secret_quiet :
  keeps (grows quiet) (GCPSecretStorage.ensure_secret self name).
Proof. keeps_auto. Qed.

Lemma disable_prior_versions_quiet keep :
  keeps (grows quiet) (GCPSecretStorage._disable_prior_versions self name keep).
Proof. keeps_auto. Qed.

Lemma read_secret_unchanged X (f : world -> X) :
  (forall t w, f (set_trace t w) = f w) ->
  keeps (same f) (GCPSecretStorage.read_secret self name).
Proof. intros Hf. keeps_auto; try (apply same_emit; exact Hf). Qed.
End StorageFrames.

(** Symbolic execution: unfold the operations down to the world, then use
    what is known about the world. *)
Ltac run :=
  cbv beta iota zeta delta [
    GCPSecretStorage.write_secret GCPSecretStorage.ensure_secret
    GCPSecretStorage._disable_prior_versions GCPSecretStorage.read_secret
    GCPSecretStorage.__init__ GCPSecretStorage._latest_version_path
    GCPSecretStorage._secret_path
    SecretManagerServiceClient.get_secret SecretManagerServiceClient.create_secret
    SecretManagerServiceClient.add_secret_version
    SecretManagerServiceClient.list_secret_versions
    SecretManagerServiceClient.disable_secret_version
    SecretManagerServiceClient.access_secret_version SecretManagerServiceClient.call
    SecretManagerServiceClient.resolve
    TokenRotator._request_refresh TokenRotator._write_tokens_file
    TokenRotator._load_tokens_from_file TokenRotator._load_tokens_from_secret
    TokenRotator._bootstrap_tokens
    get_token_payload get_access_token
    _write_tokens_file ConfigManager.require load_config Path
    log print input write_text mkdir_parents read_text path_exists
    requests_post raise_for_status response_json time_sleep time_time modify
    bind ret raise try_except emit lift_result or_else get_state ];
  simpl.

Ltac use_hyps :=
  repeat (simpl; match goal with
                 | H : ?x = _ |- context [?x] => rewrite !H
                 end); simpl.

Ltac exec := run; use_hyps.

Lemma truthy_empty_dict : truthy (JDict ∅) = false.
Proof. reflexivity. Qed.

(** ** The token reader *)

(** C9, counterexample.  With a stored payload that is valid JSON and has
    no [access_token], [get_token_payload] returns the payload: only
    [get_access_token] looks at the field. *)
Lemma get_token_payload_skips_access_token :
  let stored := Sample.obj [("token_type", JStr "bearer")] in
  let w := Sample.world_of ∅ {[ Sample.secret := [Sample.stored 1 ENABLED stored] ]}
             Sample.no_fault (Sample.answers 200 Blank) in
  dict_get stored "access_token" = Ok JNull
  /\ (get_token_payload w).1 = Ok stored
  /\ (get_access_token w).1 = Raise (RuntimeError "No access_token stored in Secret Manager").
Proof. repeat split; vm_compute; reflexivity. Qed.

(** C9, as amended.  With the configuration resolved and the secret store
    answering, the reader never depends on the files nor changes them;
    [get_token_payload] succeeds exactly when the secret's latest version
    is enabled and holds a JSON document, which it returns unchecked;
    [get_access_token] succeeds exactly when, moreover, that document is an
    object whose [access_token] is truthy, which it returns. *)
Theorem token_reader_outcomes (w : world) (secret_name project_id : string) :
  w_config w !! "MELI_TOKENS_SECRET_NAME" = Some secret_name ->
  w_config w !! "GCP_PROJECT_ID" = Some project_id ->
  project_id <> "" ->
  let parent := SecretManagerServiceClient.secret_path project_id secret_name in
  w_api_fault w (AccessSecretVersion (LatestPath parent)) = None ->
  (forall files, (get_token_payload (set_files files w)).1 = (get_token_payload w).1
                 /\ (get_access_token (set_files files w)).1 = (get_access_token w).1)
  /\ w_files (get_token_payload w).2 = w_files w
  /\ w_files (get_access_token w).2 = w_files w
  /\ (forall v, (get_token_payload w).1 = Ok v <->
        exists ver, latest_version w parent = Some ver /\ v_state ver = ENABLED
                    /\ v_data ver = Utf8 (Doc v))
  /\ (forall a, (get_access_token w).1 = Ok a <->
        exists ver d, latest_version w parent = Some ver /\ v_state ver = ENABLED
                      /\ v_data ver = Utf8 (Doc (JDict d))
                      /\ d !! "access_token" = Some a /\ truthy a = true).
Proof.
  intros Hn Hp Hne parent Hf. subst parent. unfold latest_version.
  apply String.eqb_neq in Hne.
  destruct (w_secrets w !! SecretManagerServiceClient.secret_path project_id secret_name)
    as [[|ver rest]|] eqn:Es; simpl;
    [ | destruct (v_state ver) eqn:Est; destruct (v_data ver) as [|[| |v0]] eqn:Ed;
        [ | | | destruct v0 as [ | | | | | |d];
                [ | | | | | | destruct (d !! "access_token") as [a0|] eqn:Ea;
                              [destruct (truthy a0) eqn:Et|] ] | .. ] | ];
    exec; rewrite ?truthy_empty_dict;
    (split; [intros files; by exec|]); (repeat split; try done);
    try (intros [=]; subst; by eauto 10);
    try (intros; repeat match goal with H : ex _ |- _ => destruct H end;
         destruct_and?; simplify_eq; congruence).
Qed.

(** ** Inversion of runs *)

Lemma bind_ok {S A B} (m : M S A) (k : A -> M S B) s b s' :
  bind m k s = (Ok b, s') -> exists a s1, m s = (Ok a, s1) /\ k a s1 = (Ok b, s').
Proof.
  unfold bind. destruct (m s) as [[a|e] s1]; [eauto | discriminate].
Qed.

Lemma bind_inv {S A B} (m : M S A) (k : A -> M S B) s r s' :
  bind m k s = (r, s') ->
  (exists a s1, m s = (Ok a, s1) /\ k a s1 = (r, s'))
  \/ (exists e, m s = (Raise e, s') /\ r = Raise e).
Proof.
  unfold bind. destruct (m s) as [[a|e] s1]; [eauto|].
  intros [= <- <-]. eauto.
Qed.

Lemma bind_run {S A B} (m : M S A) (k : A -> M S B) s a s1 :
  m s = (Ok a, s1) -> bind m k s = k a s1.
Proof. intros E. unfold bind. by rewrite E. Qed.

Lemma bind_fail {S A B} (m : M S A) (k : A -> M S B) s e s1 :
  m s = (Raise e, s1) -> bind m k s = (Raise e, s1).
Proof. intros E. unfold bind. by rewrite E. Qed.

Lemma lift_result_ok {S A} (x : result A) (s : S) a s' :
  lift_result x s = (Ok a, s') -> x = Ok a /\ s' = s.
Proof. by intros [= -> ->]. Qed.

Lemma env_ok {A} (m : M world A) self w a s' :
  TokenRotator.env m (self, w) = (Ok a, s') ->
  exists w', m w = (Ok a, w') /\ s' = (self, w').
Proof.
  unfold TokenRotator.env. destruct (m w) as [r w1]. intros [= -> <-]. eauto.
Qed.

Lemma env_run {A} (m : M world A) self w r w' :
  m w = (r, w') -> TokenRotator.env m (self, w) = (r, (self, w')).
Proof. intros E. unfold TokenRotator.env. by rewrite E. Qed.

Lemma persist_order_app a b : persist_order (a ++ b) = persist_order a ++ persist_order b.
Proof. apply omap_app. Qed.

Lemma persist_order_quiet seg : Forall quiet seg -> persist_order seg = [].
Proof.
  induction 1 as [|e seg He _ IH]; [done|].
  unfold persist_order in *. simpl. unfold quiet in He. by rewrite He.
Qed.

Lemma housekeeping_quiet seg : Forall housekeeping seg -> Forall quiet seg.
Proof. intros H. eapply Forall_impl; [exact H|]. by intros [| |[]| | | | |]. Qed.

Lemma housekeeping_api_only seg : Forall housekeeping seg -> Forall api_only seg.
Proof. intros H. eapply Forall_impl; [exact H|]. by intros [| |[]| | | | |]. Qed.

Section StorageRuns.
Variables (self : GCPSecretStorage.t) (name : string).

Lemma ensure_secret_housekeeping :
  keeps (grows housekeeping) (GCPSecretStorage.ensure_secret self name).
Proof. keeps_auto. Qed.

Lemma disable_prior_versions_housekeeping keep :
  keeps (grows housekeeping) (GCPSecretStorage._disable_prior_versions self name keep).
Proof. keeps_auto. Qed.

Lemma add_secret_version_ok parent payload w nm w' :
  SecretManagerServiceClient.add_secret_version parent payload w = (Ok nm, w') ->
  exists vs,
    w_secrets w !! parent = Some vs
    /\ nm = VersionPath parent (S (length vs))
    /\ w_secrets w' = <[parent := {| v_name := nm; v_state := ENABLED;
                                     v_data := payload |} :: vs]> (w_secrets w)
    /\ w_trace w' = w_trace w ++ [EvApi (AddSecretVersion parent)]
    /\ w_files w' = w_files w /\ w_clock w' = w_clock w /\ fixed w w'.
Proof.
  run. destruct (w_api_fault w _); [discriminate|].
  destruct (w_secrets w !! parent) as [vs|] eqn:E; [|discriminate].
  intros [= <- <-]. exists vs. by repeat split.
Qed.

(** A write that returns made exactly one persistence step, the adding of
    the version, among API calls only. *)
Lemma write_secret_ok payload w nm w' :
  GCPSecretStorage.write_secret self name payload w = (Ok nm, w') ->
  exists seg, w_trace w' = w_trace w ++ seg
              /\ Forall api_only seg
              /\ persist_order seg = [SecretStoreWrite].
Proof.
  unfold GCPSecretStorage.write_secret. intros H.
  apply bind_ok in H as ([] & w1 & E1 & H).
  apply bind_ok in H as (nm' & w2 & E2 & H).
  apply bind_ok in H as ([] & w3 & E3 & H).
  injection H as <- <-.
  apply ensure_secret_housekeeping in E1 as (s1 & T1 & F1).
  apply add_secret_version_ok in E2 as (vs & _ & _ & _ & T2 & _).
  apply disable_prior_versions_housekeeping in E3 as (s3 & T3 & F3).
  exists (s1 ++ [EvApi (AddSecretVersion (GCPSecretStorage._secret_path self name))] ++ s3).
  split; [by rewrite T3, T2, T1, <- !app_assoc|]. split.
  - apply Forall_app. split; [by apply housekeeping_api_only|].
    constructor; [done | by apply housekeeping_api_only].
  - rewrite !persist_order_app.
    rewrite (persist_order_quiet s1), (persist_order_quiet s3)
      by by apply housekeeping_quiet.
    reflexivity.
Qed.
End StorageRuns.

(** ** Initialization of the rotator *)








(** ** One refresh cycle *)

Lemma request_refresh_ok self rt w payload w1 :
  TokenRotator._request_refresh self rt w = (Ok payload, w1) ->
  exists resp,
    w_endpoint w (w_posts w) (TokenRotator.refresh_request self rt) = Some resp
    /\ (400 <=? status_code resp) && (status_code resp <? 600) = false
    /\ body resp = Doc payload
    /\ w_trace w1 = w_trace w ++ [EvPost (TokenRotator.refresh_request self rt)]
    /\ w_files w1 = w_files w /\ w_secrets w1 = w_secrets w
    /\ w_clock w1 = w_clock w /\ fixed w w1.
Proof.
  run. destruct (w_endpoint w (w_posts w) _) as [resp|] eqn:E; [|discriminate].
  simpl. destruct ((400 <=? status_code resp) && (status_code resp <? 600)) eqn:Es;
    simpl; [discriminate|].
  destruct (body resp) as [| |v] eqn:Eb; simpl; try discriminate.
  intros [= <- <-]. exists resp. by repeat split.
Qed.

Lemma write_tokens_file_ok self v w w1 :
  TokenRotator._write_tokens_file self v w = (Ok tt, w1) ->
  w_disk_fails w = false
  /\ w_files w1 = <[TokenRotator._token_file self := Utf8 (Doc v)]> (w_files w)
  /\ w_trace w1 = w_trace w ++ [EvFileWrite (TokenRotator._token_file self) (Doc v)]
  /\ w_secrets w1 = w_secrets w /\ w_clock w1 = w_clock w /\ fixed w w1.
Proof.
  run. destruct (w_disk_fails w) eqn:E; simpl; [discriminate|].
  rewrite E. intros [= <-]. by repeat split.
Qed.

(** What a refresh cycle that returns has done. *)
Lemma refresh_once_ok self w v self' w' :
  TokenRotator.refresh_once (self, w) = (Ok v, (self', w')) ->
  exists tokens rt resp payload td pre api,
    let held := default JNull (tokens !! "refresh_token") in
    let now := w_clock w in
    let field k := default JNull (payload !! k) in
    TokenRotator._tokens self = JDict tokens
    /\ (truthy held = true /\ rt = held /\ pre = []
        \/ truthy held = false
           /\ (exists fb, TokenRotator._config self !! "MELI_REFRESH_TOKEN" = Some fb
                          /\ rt = JStr fb)
           /\ pre = [EvRequire "MELI_REFRESH_TOKEN"])
    /\ w_endpoint w (w_posts w) (TokenRotator.refresh_request self rt) = Some resp
    /\ body resp = Doc (JDict payload)
    /\ v = JDict td
    /\ td !! "access_token" = Some (field "access_token")
    /\ truthy (field "access_token") = true
    /\ td !! "refresh_token" = Some (py_or (field "refresh_token") rt)
    /\ td !! "token_type" = Some (field "token_type")
    /\ td !! "scope" = Some (field "scope")
    /\ td !! "expires_in" = Some (field "expires_in")
    /\ td !! "updated_at" = Some (JInt now)
    /\ (truthy (field "expires_in") = true
        /\ (exists n, py_int (field "expires_in") = Ok n
                      /\ td !! "expires_at" = Some (JInt (now + n)))
        \/ truthy (field "expires_in") = false /\ td !! "expires_at" = None)
    /\ self' = TokenRotator.set_tokens v self
    /\ w_files w' = <[TokenRotator._token_file self := Utf8 (Doc v)]> (w_files w)
    /\ w_trace w' =
         w_trace w ++ pre
           ++ [EvPost (TokenRotator.refresh_request self rt); EvSetTokens v;
               EvFileWrite (TokenRotator._token_file self) (Doc v)]
           ++ api
           ++ [EvLog "INFO"
                 "Tokens refreshed; latest version enabled and prior versions disabled in GCP"]
    /\ Forall api_only api
    /\ persist_order api = [SecretStoreWrite].
Proof.
  unfold TokenRotator.refresh_once. intros H.
  apply bind_ok in H as (self0 & s0 & E0 & H). injection E0 as <- <-.
  apply bind_ok in H as (held & s1 & E1 & H).
  apply lift_result_ok in E1 as [E1 ->].
  destruct (TokenRotator._tokens self) as [| | | | | |tokens] eqn:Etok; try discriminate.
  injection E1 as <-.
  apply bind_ok in H as (rt & s2 & E2 & H).
  assert (exists pre w2,
    s2 = (self, w2) /\ w_trace w2 = w_trace w ++ pre
    /\ w_files w2 = w_files w /\ w_clock w2 = w_clock w /\ fixed w w2
    /\ w_posts w2 = w_posts w
    /\ (truthy (default JNull (tokens !! "refresh_token")) = true
        /\ rt = default JNull (tokens !! "refresh_token") /\ pre = []
        \/ truthy (default JNull (tokens !! "refresh_token")) = false
           /\ (exists fb, TokenRotator._config self !! "MELI_REFRESH_TOKEN" = Some fb
                          /\ rt = JStr fb)
           /\ pre = [EvRequire "MELI_REFRESH_TOKEN"]))
    as (pre & w2 & -> & T2 & F2 & C2 & X2 & P2 & Hrt).
  { unfold or_else in E2.
    destruct (truthy (default JNull (tokens !! "refresh_token"))) eqn:Eh.
    - injection E2 as <- <-. exists [], w. rewrite app_nil_r.
      repeat split; auto.
    - apply bind_ok in E2 as (fb & s & E2 & R2). injection R2 as <- <-.
      apply env_ok in E2 as (w2 & E2 & ->). revert E2. run.
      destruct (TokenRotator._config self !! "MELI_REFRESH_TOKEN") as [fb'|] eqn:Ec;
        [|discriminate].
      intros [= <- <-]. eexists _, _. repeat split; eauto 10. }
  apply bind_ok in H as (payload & s3 & E3 & H).
  apply env_ok in E3 as (w3 & E3 & ->).
  apply request_refresh_ok in E3 as (resp & Er & _ & Eb & T3 & F3 & S3 & C3 & X3).
  apply bind_ok in H as (now & s4 & E4 & H).
  apply env_ok in E4 as (w4 & E4 & ->). injection E4 as <- <-.
  apply bind_ok in H as (a & s5 & E5 & H). apply lift_result_ok in E5 as [E5 ->].
  destruct payload as [| | | | | |payload]; try discriminate. injection E5 as <-.
  apply bind_ok in H as (r & s5 & E5 & H). apply lift_result_ok in E5 as [[= <-] ->].
  apply bind_ok in H as (ty & s5 & E5 & H). apply lift_result_ok in E5 as [[= <-] ->].
  apply bind_ok in H as (sc & s5 & E5 & H). apply lift_result_ok in E5 as [[= <-] ->].
  apply bind_ok in H as (ei & s5 & E5 & H). apply lift_result_ok in E5 as [[= <-] ->].
  apply bind_ok in H as (ei' & s5 & E5 & H). apply lift_result_ok in E5 as [[= <-] ->].
  apply bind_ok in H as (td & s5 & E5 & H).
  set (base := <["updated_at" := _]> _) in E5.
  assert (s5 = (self, w3)
          /\ td !! "access_token" = base !! "access_token"
          /\ td !! "refresh_token" = base !! "refresh_token"
          /\ td !! "token_type" = base !! "token_type"
          /\ td !! "scope" = base !! "scope"
          /\ td !! "expires_in" = base !! "expires_in"
          /\ td !! "updated_at" = base !! "updated_at"
          /\ (truthy (default JNull (payload !! "expires_in")) = true
              /\ (exists n, py_int (default JNull (payload !! "expires_in")) = Ok n
                            /\ td !! "expires_at" = Some (JInt (w_clock w3 + n)))
              \/ truthy (default JNull (payload !! "expires_in")) = false
                 /\ td !! "expires_at" = base !! "expires_at"))
    as (-> & Ka & Kr & Kt & Ks & Ke & Ku & Kx).
  { destruct (truthy (default JNull (payload !! "expires_in"))) eqn:Et.
    - apply bind_ok in E5 as (n & s & E5 & R5). apply lift_result_ok in E5 as [E5 ->].
      injection R5 as <- <-.
      repeat split; try (by rewrite lookup_insert_ne).
      left. split; [done|]. exists n. by rewrite lookup_insert_eq.
    - injection E5 as <- <-. repeat split. by right. }
  subst base.
  rewrite lookup_insert_ne, lookup_insert_ne, lookup_insert_ne, lookup_insert_ne,
    lookup_insert_ne, lookup_insert_eq in Ka by done.
  rewrite lookup_insert_ne, lookup_insert_ne, lookup_insert_ne, lookup_insert_ne,
    lookup_insert_eq in Kr by done.
  rewrite lookup_insert_ne, lookup_insert_ne, lookup_insert_ne, lookup_insert_eq in Kt by done.
  rewrite lookup_insert_ne, lookup_insert_ne, lookup_insert_eq in Ks by done.
  rewrite lookup_insert_ne, lookup_insert_eq in Ke by done.
  rewrite lookup_insert_eq in Ku.
  rewrite !lookup_insert_ne, lookup_empty in Kx by done.
  rewrite Ka in H. simpl in H.
  destruct (truthy (default JNull (payload !! "access_token"))) eqn:Eacc; [|discriminate].
  simpl in H.
  apply bind_ok in H as ([] & s6 & E6 & H).
  unfold TokenRotator.assign_tokens in E6.
  apply bind_ok in E6 as ([] & s & E6 & R6).
  apply env_ok in E6 as (w5 & E6 & ->). injection E6 as <-. injection R6 as <-.
  apply bind_ok in H as ([] & s7 & E7 & H).
  apply env_ok in E7 as (w6 & E7 & ->).
  apply write_tokens_file_ok in E7 as (D7 & F7 & T7 & S7 & C7 & X7).
  apply bind_ok in H as (nm & s8 & E8 & H).
  apply env_ok in E8 as (w7 & E8 & ->).
  pose proof (write_secret_files _ _ _ _ _ _ E8) as F8.
  apply write_secret_ok in E8 as (api & T8 & A8 & O8).
  apply bind_ok in H as ([] & s9 & E9 & H).
  apply env_ok in E9 as (w8 & E9 & ->). injection E9 as <-.
  injection H as <- <- <-.
  exists tokens, rt, resp, payload, td, pre, api. simpl.
  rewrite P2 in Er. destruct X2 as (Xc & Xd & Xa & Xe & Xi). rewrite Xe in Er.
  rewrite C3, C2 in Kx.
  repeat split; try done.
  - by rewrite Ku, C3, C2.
  - unfold same in F8. rewrite F8, F7. simpl. by rewrite F3, F2.
  - rewrite T8, T7. simpl. rewrite T3, T2. by rewrite <- !app_assoc.
Qed.

(** C1, counterexample.  In the scenario of the specification the cycle
    succeeds and replaces the in-memory token set first, before the file
    and the secret are written; and with a disk that refuses the write the
    cycle fails with the in-memory token set already replaced. *)
Lemma refresh_commits_before_persisting :
  (is_ok Sample.cycle0.1 = true
   /\ persist_order (w_trace Sample.cycle0.2.2)
      = [MemoryCommit; FileCacheWrite; SecretStoreWrite]
   /\ persist_order (w_trace Sample.cycle0.2.2)
      <> [FileCacheWrite; SecretStoreWrite; MemoryCommit])
  /\ (let '(r, (self', w')) :=
        TokenRotator.refresh_once
          (Sample.rotator Sample.old_tokens, Sample.with_broken_disk Sample.world0) in
      r = Raise OSError
      /\ dict_get (TokenRotator._tokens self') "access_token" = Ok (JStr "A2")
      /\ w_files w' = ∅
      /\ persist_order (w_trace w') = [MemoryCommit]).
Proof. vm_compute. repeat split; try discriminate. Qed.

(** C1, as amended.  In every refresh cycle that returns, the in-memory
    token set is replaced first, then the file cache is written, then the
    version is added to the secret: each step happens once, in that order. *)
Theorem refresh_once_persist_order self w v self' w' :
  TokenRotator.refresh_once (self, w) = (Ok v, (self', w')) ->
  exists seg, w_trace w' = w_trace w ++ seg
              /\ persist_order seg = [MemoryCommit; FileCacheWrite; SecretStoreWrite].
Proof.
  intros H. apply refresh_once_ok in H
    as (tokens & rt & resp & payload & td & pre & api & H). simpl in H.
  destruct H as (_ & Hpre & _ & _ & _ & _ & _ & _ & _ & _ & _ & _ & _ & _ & _ & T & _ & O).
  eexists. split; [exact T|].
  unfold persist_order in *.
  destruct Hpre as [(_ & _ & ->)|(_ & _ & ->)]; simpl; by rewrite omap_app, O.
Qed.

Lemma refresh_once_persist_order_witness :
  TokenRotator.refresh_once (Sample.rotator Sample.old_tokens, Sample.world0)
    = (Ok (Sample.value JNull Sample.cycle0.1), (Sample.cycle0.2.1, Sample.cycle0.2.2))
  /\ exists seg, w_trace Sample.cycle0.2.2 = w_trace Sample.world0 ++ seg
                 /\ persist_order seg = [MemoryCommit; FileCacheWrite; SecretStoreWrite].
Proof.
  assert (TokenRotator.refresh_once (Sample.rotator Sample.old_tokens, Sample.world0)
          = (Ok (Sample.value JNull Sample.cycle0.1),
             (Sample.cycle0.2.1, Sample.cycle0.2.2))) as E
    by (vm_compute; reflexivity).
  split; [exact E|]. exact (refresh_once_persist_order _ _ _ _ _ E).
Defined.

(** C4, counterexample.  [expires_in] is present in the answer, with value
    0: the token set gets no [expires_at], not [updated_at + 0]. *)
Lemma refresh_zero_expires_in :
  let answer := Sample.obj [("access_token", JStr "A2"); ("expires_in", JInt 0)] in
  let w := Sample.world_of ∅ Sample.seeded Sample.no_fault (Sample.answers 200 (Doc answer)) in
  exists td,
    (TokenRotator.refresh_once (Sample.rotator Sample.old_tokens, w)).1 = Ok (JDict td)
    /\ td !! "expires_in" = Some (JInt 0)
    /\ td !! "updated_at" = Some (JInt (w_clock w))
    /\ td !! "expires_at" = None.
Proof. eexists. vm_compute. repeat split. Qed.

(** C4, as amended.  The token set built by a cycle that returns has
    [updated_at] equal to the time of the call; it has [expires_at] equal
    to [updated_at + int(expires_in)] whenever the answer's [expires_in] is
    truthy (so for every integer other than 0), and no [expires_at] when
    [expires_in] is missing, null, 0 or otherwise falsy. *)
Theorem refresh_once_timestamps self w v self' w' :
  TokenRotator.refresh_once (self, w) = (Ok v, (self', w')) ->
  exists rt resp payload td,
    w_endpoint w (w_posts w) (TokenRotator.refresh_request self rt) = Some resp
    /\ body resp = Doc (JDict payload)
    /\ v = JDict td
    /\ td !! "updated_at" = Some (JInt (w_clock w))
    /\ (forall n, payload !! "expires_in" = Some (JInt n) -> n <> 0 ->
          td !! "expires_at" = Some (JInt (w_clock w + n)))
    /\ (forall e, payload !! "expires_in" = Some e -> truthy e = true ->
          exists n, py_int e = Ok n /\ td !! "expires_at" = Some (JInt (w_clock w + n)))
    /\ (payload !! "expires_in" = None -> td !! "expires_at" = None)
    /\ (forall e, payload !! "expires_in" = Some e -> truthy e = false ->
          td !! "expires_at" = None).
Proof.
  intros H. apply refresh_once_ok in H
    as (tokens & rt & resp & payload & td & pre & api & H). simpl in H.
  destruct H as (_ & _ & Er & Eb & -> & _ & _ & _ & _ & _ & _ & Eu & Ex & _).
  exists rt, resp, payload, td. repeat split; try done.
  - intros n En Hn. rewrite En in Ex. simpl in Ex.
    destruct Ex as [(_ & m & [= <-] & Ex)|[Ht _]]; [done|].
    unfold truthy in Ht. apply negb_false_iff, Z.eqb_eq in Ht. done.
  - intros e Ee He. rewrite Ee in Ex. simpl in Ex.
    destruct Ex as [(_ & Ex)|[Ht _]]; [done | congruence].
  - intros Ee. rewrite Ee in Ex. simpl in Ex.
    destruct Ex as [(Ht & _)|[_ Ex]]; [discriminate | done].
  - intros e Ee He. rewrite Ee in Ex. simpl in Ex.
    destruct Ex as [(Ht & _)|[_ Ex]]; [congruence | done].
Qed.

Lemma refresh_once_timestamps_witness :
  TokenRotator.refresh_once (Sample.rotator Sample.old_tokens, Sample.world0)
    = (Ok (Sample.value JNull Sample.cycle0.1), (Sample.cycle0.2.1, Sample.cycle0.2.2))
  /\ exists td, Sample.cycle0.1 = Ok (JDict td)
                /\ td !! "updated_at" = Some (JInt 1700000000)
                /\ td !! "expires_at" = Some (JInt (1700000000 + 21600)).
Proof.
  assert (TokenRotator.refresh_once (Sample.rotator Sample.old_tokens, Sample.world0)
          = (Ok (Sample.value JNull Sample.cycle0.1),
             (Sample.cycle0.2.1, Sample.cycle0.2.2))) as E
    by (vm_compute; reflexivity).
  split; [exact E|].
  destruct (refresh_once_timestamps _ _ _ _ _ E)
    as (rt & resp & payload & td & Er & Eb & Ev & Eu & Ex & _).
  exists td. split; [|split; [exact Eu|]].
  - transitivity (Ok (A:=json) (Sample.value JNull Sample.cycle0.1));
      [vm_compute; reflexivity | by rewrite Ev].
  - apply Ex; [|done].
    cbv [Sample.world0 Sample.world_of Sample.answers w_endpoint] in Er.
    injection Er as <-. simpl in Eb.
    unfold Sample.fresh_answer, Sample.obj in Eb. injection Eb as <-.
    vm_compute. reflexivity.
Defined.

Lemma token_reader_outcomes_witness :
  let w := Sample.world_of ∅ {[ Sample.secret := [Sample.stored 1 ENABLED Sample.old_tokens] ]}
             Sample.no_fault (Sample.answers 200 Blank) in
  (get_token_payload w).1 = Ok Sample.old_tokens
  /\ (get_access_token w).1 = Ok (JStr "A1").
Proof.
  intros w.
  destruct (token_reader_outcomes w "meli-tokens" "proj") as (_ & _ & _ & Hp & Ha);
    [reflexivity | reflexivity | discriminate | reflexivity |].
  split.
  - apply Hp. exists (Sample.stored 1 ENABLED Sample.old_tokens). by vm_compute.
  - apply Ha. eexists (Sample.stored 1 ENABLED Sample.old_tokens), _.
    repeat split; by vm_compute.
Defined.

(** ** The bootstrap flow *)

(** C2: the code at the failing input.  The exchange answers 200 with a
    body that has no [access_token]; [bootstrap_tokens] returns that body,
    having written it to the token file and added it to the secret as a new
    enabled version.  No error is raised. *)
Theorem bootstrap_tokens_persists_without_access_token :
  let answer := Sample.obj [("token_type", JStr "bearer")] in
  let w := Sample.world_of ∅ ∅ Sample.no_fault (Sample.answers 200 (Doc answer)) in
  let '(r, w') := bootstrap_tokens (Some "code-1") w in
  dict_get answer "access_token" = Ok JNull
  /\ r = Ok answer
  /\ w_files w' !! "tokens.json" = Some (Utf8 (Doc answer))
  /\ w_secrets w' !! Sample.secret
     = Some [ {| v_name := VersionPath Sample.secret 1; v_state := ENABLED;
                 v_data := Utf8 (Doc answer) |} ].
Proof. vm_compute. repeat split. Qed.

(** The sibling path, on the same answer: the refresh cycle raises and
    writes nothing. *)
Lemma refresh_once_rejects_the_same_answer :
  let answer := Sample.obj [("token_type", JStr "bearer")] in
  let w := Sample.world_of ∅ ∅ Sample.no_fault (Sample.answers 200 (Doc answer)) in
  let '(r, (_, w')) := TokenRotator.refresh_once (Sample.rotator Sample.old_tokens, w) in
  r = Raise (RuntimeError "No access_token returned by MercadoLibre")
  /\ w_files w' = ∅ /\ w_secrets w' = ∅.
Proof. vm_compute. repeat split. Qed.

(** ** Carry-forward of the refresh token *)

(** C6.  When the answer omits [refresh_token], the token set a refresh
    cycle produces has the refresh token that was posted in the request,
    and [access_token], [token_type], [scope] and [expires_in] as the answer
    has them ([None] for those it lacks). *)
Theorem refresh_once_carries_refresh_token self w v self' w' :
  TokenRotator.refresh_once (self, w) = (Ok v, (self', w')) ->
  exists rt resp payload td,
    EvPost (TokenRotator.refresh_request self rt) ∈ w_trace w'
    /\ ("refresh_token", rt) ∈ data (TokenRotator.refresh_request self rt)
    /\ w_endpoint w (w_posts w) (TokenRotator.refresh_request self rt) = Some resp
    /\ body resp = Doc (JDict payload)
    /\ v = JDict td
    /\ (payload !! "refresh_token" = None -> td !! "refresh_token" = Some rt)
    /\ Forall (fun k => td !! k = Some (default JNull (payload !! k)))
         ["access_token"; "token_type"; "scope"; "expires_in"].
Proof.
  intros H. apply refresh_once_ok in H
    as (tokens & rt & resp & payload & td & pre & api & H). simpl in H.
  destruct H as (_ & _ & Er & Eb & -> & Ka & _ & Kr & Kt & Ks & Ke & _ & _ & _ & _ & T & _).
  exists rt, resp, payload, td. repeat split; try done.
  - rewrite T. set_solver.
  - unfold TokenRotator.refresh_request. simpl. set_solver.
  - intros En. by rewrite Kr, En.
  - by repeat constructor.
Qed.

Lemma refresh_once_carries_refresh_token_witness :
  TokenRotator.refresh_once (Sample.rotator Sample.old_tokens, Sample.world0)
    = (Ok (Sample.value JNull Sample.cycle0.1), (Sample.cycle0.2.1, Sample.cycle0.2.2))
  /\ exists td, Sample.cycle0.1 = Ok (JDict td)
                /\ td !! "refresh_token" = Some (JStr "R")
                /\ td !! "access_token" = Some (JStr "A2").
Proof.
  assert (TokenRotator.refresh_once (Sample.rotator Sample.old_tokens, Sample.world0)
          = (Ok (Sample.value JNull Sample.cycle0.1),
             (Sample.cycle0.2.1, Sample.cycle0.2.2))) as E
    by (vm_compute; reflexivity).
  split; [exact E|].
  destruct (refresh_once_carries_refresh_token _ _ _ _ _ E)
    as (rt & resp & payload & td & Hin & _ & Er & Eb & Ev & Hr & Hk).
  cbv [Sample.world0 Sample.world_of Sample.answers w_endpoint] in Er.
  injection Er as <-. simpl in Eb.
  unfold Sample.fresh_answer, Sample.obj in Eb. injection Eb as <-.
  assert (rt = JStr "R") as ->.
  { assert (TokenRotator.refresh_request (Sample.rotator Sample.old_tokens) rt
            ∈ posted (w_trace Sample.cycle0.2.2)) as Hp
      by (apply list_elem_of_omap; eauto).
    replace (posted (w_trace Sample.cycle0.2.2))
      with [TokenRotator.refresh_request (Sample.rotator Sample.old_tokens) (JStr "R")]
      in Hp by (vm_compute; reflexivity).
    apply list_elem_of_singleton in Hp. by injection Hp. }
  exists td. split; [|split].
  - transitivity (Ok (A:=json) (Sample.value JNull Sample.cycle0.1));
      [vm_compute; reflexivity | by rewrite Ev].
  - apply Hr. by vm_compute.
  - apply Forall_cons_1 in Hk as [Hk _]. rewrite Hk. by vm_compute.
Defined.


(** ** A refresh answer without access token *)

Ltac run_cycle :=
  cbv beta iota zeta delta [
    TokenRotator.refresh_once TokenRotator.env TokenRotator.self_
    TokenRotator.assign_tokens TokenRotator._request_refresh
    ConfigManager.require requests_post raise_for_status response_json
    time_time log modify bind ret raise try_except emit lift_result or_else ];
  simpl.

(** C5.  When the answer to the cycle's POST is a JSON object whose
    [access_token] is missing or falsy (empty), [refresh_once] raises, the
    rotator keeps the token set it had, the files and the secrets are as
    they were and no persistence step was made; with a success status and
    an [expires_in] that is falsy or converts to an integer, the error is
    the "No access_token" RuntimeError. *)
Theorem refresh_once_without_access_token self w tokens fb resp payload :
  TokenRotator._tokens self = JDict tokens ->
  let held := default JNull (tokens !! "refresh_token") in
  (truthy held = false -> TokenRotator._config self !! "MELI_REFRESH_TOKEN" = Some fb) ->
  let rt := if truthy held then held else JStr fb in
  w_endpoint w (w_posts w) (TokenRotator.refresh_request self rt) = Some resp ->
  body resp = Doc (JDict payload) ->
  truthy (default JNull (payload !! "access_token")) = false ->
  exists e w' seg,
    TokenRotator.refresh_once (self, w) = (Raise e, (self, w'))
    /\ w_files w' = w_files w /\ w_secrets w' = w_secrets w
    /\ w_trace w' = w_trace w ++ seg /\ persist_order seg = []
    /\ ((400 <=? status_code resp) && (status_code resp <? 600) = false ->
        truthy (default JNull (payload !! "expires_in")) = false
        \/ is_ok (py_int (default JNull (payload !! "expires_in"))) = true ->
        e = RuntimeError "No access_token returned by MercadoLibre").
Proof.
  intros Htok held Hfb rt Er Eb Ea. subst held rt.
  destruct (truthy (default JNull (tokens !! "refresh_token"))) eqn:Eh;
    [|specialize (Hfb eq_refl)];
    (destruct ((400 <=? status_code resp) && (status_code resp <? 600)) eqn:Es;
     [|destruct (truthy (default JNull (payload !! "expires_in"))) eqn:Ee;
       [destruct (py_int (default JNull (payload !! "expires_in"))) as [n|e'] eqn:Ei|]]).
  all: run_cycle; use_hyps;
    rewrite ?lookup_insert_ne, ?lookup_insert_eq by done; simpl; use_hyps.
  all: eexists _, _, _; (split; [reflexivity|]); simpl;
    rewrite <- ?app_assoc; repeat split; try done.
  all: intros _ [Hx|Hx]; first [done | congruence | by rewrite Ei in Hx].
Qed.

Lemma refresh_once_without_access_token_witness :
  let answer := {[ "token_type" := JStr "bearer" ]} : gmap string json in
  let w := Sample.world_of ∅ Sample.seeded Sample.no_fault
             (Sample.answers 200 (Doc (JDict answer))) in
  exists w',
    TokenRotator.refresh_once (Sample.rotator Sample.old_tokens, w)
      = (Raise (RuntimeError "No access_token returned by MercadoLibre"),
         (Sample.rotator Sample.old_tokens, w'))
    /\ w_files w' = ∅ /\ w_secrets w' = Sample.seeded.
Proof.
  intros answer w.
  destruct (refresh_once_without_access_token (Sample.rotator Sample.old_tokens) w
              (list_to_map [("access_token", JStr "A1"); ("refresh_token", JStr "R")])
              "" {| status_code := 200; body := Doc (JDict answer) |} answer)
    as (e & w' & seg & E & F & S & _ & _ & He);
    [reflexivity | discriminate | reflexivity | reflexivity | reflexivity |].
  exists w'. rewrite <- He; [by repeat split | reflexivity | by left].
Defined.


(** ** The fallback refresh token *)

Lemma keeps_self_ (R : relation TokenRotator.state) `{!PreOrder R} :
  keeps R TokenRotator.self_.
Proof. intros [self w] r s' [= <- <-]. reflexivity. Qed.

Lemma keeps_assign_tokens (R : relation world) `{!PreOrder R} v :
  keeps R (emit (EvSetTokens v)) -> keeps (in_env R) (TokenRotator.assign_tokens v).
Proof.
  intros He. unfold TokenRotator.assign_tokens.
  apply keeps_bind; [tc_solve | by apply keeps_env |].
  intros _ [self w] r s' [= <- <-]. unfold in_env. simpl. reflexivity.
Qed.

Ltac keeps_cycle :=
  repeat first
    [ apply keeps_self_; tc_solve
    | apply keeps_assign_tokens; [tc_solve | keeps_emit]
    | keeps_step ].

Lemma posted_app a b : posted (a ++ b) = posted a ++ posted b.
Proof. apply omap_app. Qed.

Lemma posted_api_only seg : Forall api_only seg -> posted seg = [].
Proof. induction 1 as [|[] ? ? ? IH]; try done. Qed.





(** ** The rotation loop *)

Lemma refresh_once_clock : keeps (in_env (same w_clock)) TokenRotator.refresh_once.
Proof. unfold TokenRotator.refresh_once. keeps_cycle. Qed.

Lemma refresh_once_fixed : keeps (in_env fixed) TokenRotator.refresh_once.
Proof. unfold TokenRotator.refresh_once. keeps_cycle. Qed.

(** What one turn of the loop does, given what its refresh attempt did. *)
Lemma cycle_run interval s r s1 :
  0 < interval <= w_sleep_max s.2 ->
  TokenRotator.refresh_once s = (r, s1) ->
  let pause := if is_ok r then interval else Z.min 600 interval in
  let logged := if is_ok r then [] else [EvLog "ERROR" "Token refresh failed: %s"] in
  exists w',
    TokenRotator.cycle interval s = (Ok tt, (s1.1, w'))
    /\ w_trace w' = w_trace s1.2 ++ logged ++ [EvSleep pause]
    /\ w_clock w' = w_clock s1.2 + pause
    /\ w_sleep_max w' = w_sleep_max s.2.
Proof.
  intros Hpos E.
  pose proof (refresh_once_fixed _ _ _ E) as (_ & _ & _ & _ & _ & Hm).
  destruct s1 as [self1 w1]. simpl in *.
  unfold TokenRotator.cycle, bind, try_except. rewrite E.
  destruct r as [v|e]; simpl.
  - unfold TokenRotator.env, time_sleep, bind, get_state.
    destruct (interval <? 0) eqn:El; [lia|].
    destruct (w_sleep_max w1 <? interval) eqn:Eu; [lia|].
    eexists. split; [reflexivity|]. by simpl.
  - unfold TokenRotator.env, time_sleep, log, bind, emit, modify, ret, get_state. simpl.
    destruct (Z.min 600 interval <? 0) eqn:El; [lia|]. simpl.
    destruct (w_sleep_max w1 <? Z.min 600 interval) eqn:Eu; [lia|]. simpl.
    eexists. split; [reflexivity|]. simpl. by rewrite <- app_assoc.
Qed.





(** ** Writing a secret *)

#[global] Instance evolve_preorder keep : PreOrder (evolve keep).
Proof.
  split.
  - intros a. repeat split. by left.
  - intros a b c (N1 & D1 & S1) (N2 & D2 & S2). repeat split; try congruence.
    destruct S1 as [S1|[S1 K1]], S2 as [S2|[S2 K2]]; try (left; congruence);
      right; split; congruence.
Qed.

#[global] Instance evolves_preorder keep : PreOrder (evolves keep).
Proof.
  split.
  - intros w. split; [done|]. intros s vs E. exists vs. split; [done | reflexivity].
  - intros a b c [F1 H1] [F2 H2]. split; [congruence|].
    intros s vs E. destruct (H1 s vs E) as (vs1 & E1 & A1).
    destruct (H2 s vs1 E1) as (vs2 & E2 & A2). exists vs2. split; [done|].
    by etrans.
Qed.

Lemma disable_in_evolve keep n vs :
  n <> keep -> Forall2 (evolve keep) vs (disable_in n vs).
Proof.
  intros Hn. induction vs as [|v vs IH]; simpl; constructor; [|exact IH].
  destruct (decide (v_name v = n)) as [<-|]; simpl; [|reflexivity].
  repeat split. by right.
Qed.

Lemma evolves_emit keep e : keeps (evolves keep) (emit e).
Proof.
  intros w r w' [= <- <-]. split; [done|]. intros s vs E. exists vs.
  split; [done | reflexivity].
Qed.

Lemma disable_secret_version_evolves keep n :
  n <> keep -> keeps (evolves keep) (disable_secret_version n).
Proof.
  intros Hn. unfold disable_secret_version.
  apply keeps_call; [tc_solve | apply evolves_emit |].
  intros w r w'.
  destruct (w_secrets w !! secret_of n ≫= find_version n) as [v|];
    [|intros [= <- <-]; reflexivity].
  destruct (v_state v); intros [= <- <-]; try reflexivity.
  all: split; [done|]; intros s vs E; simpl;
    destruct (decide (s = secret_of n)) as [->|Hs];
    [ rewrite lookup_alter_eq, E; simpl; eexists; split; [done|];
      by apply disable_in_evolve
    | rewrite lookup_alter_ne by done; exists vs; split; [done | reflexivity] ].
Qed.

Lemma disable_unless_kept_evolves keep v :
  keeps (evolves keep) (disable_unless_kept keep v).
Proof.
  unfold disable_unless_kept.
  destruct (decide (v_name v = keep)); [apply keeps_ret; tc_solve|].
  destruct (decide (v_state v = ENABLED)); [|apply keeps_ret; tc_solve].
  apply keeps_try_except; [tc_solve | by apply disable_secret_version_evolves |].
  intros _. apply keeps_ret; tc_solve.
Qed.

Section Sweep.
Variable keep : version_name.

(** The loop body raises only what a disabling call raises outside the
    class its handler catches. *)
Lemma disable_unless_kept_run v w r w' :
  disable_unless_kept keep v w = (r, w') ->
  r = Ok tt
  \/ exists e, r = Raise e /\ v_name v <> keep /\ v_state v = ENABLED
               /\ w_api_fault w (DisableSecretVersion (v_name v)) = Some e
               /\ GCPSecretStorage.is_GoogleAPICallError e = false.
Proof.
  unfold disable_unless_kept.
  destruct (decide (v_name v = keep)); [intros [= <- <-]; by left|].
  destruct (decide (v_state v = ENABLED)); [|intros [= <- <-]; by left].
  unfold try_except, disable_secret_version, call, bind, emit, modify, ret. simpl.
  destruct (w_api_fault w _) as [err|] eqn:Ef; simpl.
  - destruct (GCPSecretStorage.is_GoogleAPICallError err) eqn:Ee; intros [= <- <-];
      [by left|]. right. by exists err.
  - destruct (_ ≫= _) as [x|]; simpl; [|intros [= <- <-]; by left].
    destruct (v_state x); simpl; intros [= <- <-]; by left.
Qed.

Lemma disable_unless_kept_housekeeping v :
  keeps (grows housekeeping) (disable_unless_kept keep v).
Proof. unfold disable_unless_kept. keeps_auto. Qed.

(** The call is made for every enabled version other than the kept one. *)
Lemma disable_unless_kept_attempts v w r w' :
  disable_unless_kept keep v w = (r, w') ->
  v_name v <> keep -> v_state v = ENABLED ->
  exists seg, w_trace w' = w_trace w ++ EvApi (DisableSecretVersion (v_name v)) :: seg.
Proof.
  intros H Hn Hs. unfold disable_unless_kept in H.
  destruct (decide (v_name v = keep)); [done|].
  destruct (decide (v_state v = ENABLED)); [|done].
  revert H. unfold try_except, disable_secret_version, call, bind, emit, modify, ret.
  simpl. destruct (w_api_fault w _) as [err|]; simpl;
    [destruct (GCPSecretStorage.is_GoogleAPICallError err); intros [= <- <-]; by exists []|].
  destruct (_ ≫= _) as [x|]; simpl; [|intros [= <- <-]; by exists []].
  destruct (v_state x); intros [= <- <-]; by exists [].
Qed.

(** The sweep stops only at a disabling call that raises outside the
    class the handler catches. *)
Lemma sweep_run vs w r w' :
  for_each vs (disable_unless_kept keep) w = (r, w') ->
  r = Ok tt
  \/ exists v e, v ∈ vs /\ r = Raise e /\ v_name v <> keep /\ v_state v = ENABLED
                 /\ w_api_fault w (DisableSecretVersion (v_name v)) = Some e
                 /\ GCPSecretStorage.is_GoogleAPICallError e = false.
Proof.
  revert w. induction vs as [|v vs IH]; intros w; simpl.
  - intros [= <- <-]. by left.
  - intros H. apply bind_inv in H as [([] & w1 & E & H)|(e & E & ->)].
    + pose proof (disable_unless_kept_evolves _ _ _ _ _ E) as [F _].
      destruct (IH _ H) as [->|(x & e & Hx & -> & Hn & Hs & Hf & He)]; [by left|].
      right. exists x, e. rewrite F in Hf.
      split; [apply elem_of_cons; by right | done].
    + apply disable_unless_kept_run in E as [?|(e' & [= <-] & Hn & Hs & Hf & He)];
        [done|].
      right. exists v, e. split; [apply elem_of_cons; by left | done].
Qed.

Lemma sweep_attempts vs w w' :
  for_each vs (disable_unless_kept keep) w = (Ok tt, w') ->
  exists seg, w_trace w' = w_trace w ++ seg /\ Forall housekeeping seg
              /\ forall v, v ∈ vs -> v_name v <> keep -> v_state v = ENABLED ->
                    EvApi (DisableSecretVersion (v_name v)) ∈ seg.
Proof.
  revert w. induction vs as [|v vs IH]; intros w; simpl.
  - intros [= <-]. exists []. rewrite app_nil_r. repeat split; [done|].
    intros v Hv. by apply elem_of_nil in Hv.
  - intros H. apply bind_ok in H as ([] & w1 & E & H).
    destruct (disable_unless_kept_housekeeping v _ _ _ E) as (s1 & T1 & F1).
    destruct (IH _ H) as (s2 & T2 & F2 & A2).
    exists (s1 ++ s2). split; [by rewrite T2, T1, <- app_assoc|].
    split; [by apply Forall_app|].
    intros x Hx Hn Hs. apply elem_of_cons in Hx as [->|Hx].
    + destruct (disable_unless_kept_attempts _ _ _ _ E Hn Hs) as (s & T).
      rewrite T1 in T. apply app_inv_head in T. rewrite T.
      apply elem_of_app. left. apply elem_of_cons. by left.
    + apply elem_of_app. right. by apply A2.
Qed.

Lemma sweep_evolves vs : keeps (evolves keep) (for_each vs (disable_unless_kept keep)).
Proof.
  apply keeps_for_each; [tc_solve|]. intros v. apply disable_unless_kept_evolves.
Qed.

Lemma evolves_can_disable n w w' :
  evolves keep w w' -> can_disable n w -> can_disable n w'.
Proof.
  intros [F H] (Hf & vs & E & (x & Hx & Nx) & Hd).
  destruct (H _ _ E) as (vs' & E' & A). split; [by rewrite F|].
  exists vs'. split; [done|]. split.
  - apply list_elem_of_lookup in Hx as [i Hi].
    destruct (Forall2_lookup_l _ _ _ _ _ A Hi) as (y & Hy & (N & _ & _)).
    exists y. split; [by eapply list_elem_of_lookup_2 | congruence].
  - intros y Hy Ny. apply list_elem_of_lookup in Hy as [i Hi].
    destruct (Forall2_lookup_r _ _ _ _ _ A Hi) as (a & Ha & (N & _ & [S|[S _]])).
    + rewrite S. apply Hd; [by eapply list_elem_of_lookup_2 | congruence].
    + by rewrite S.
Qed.

Lemma evolves_all_disabled n w w' :
  evolves keep w w' -> all_disabled n w -> all_disabled n w'.
Proof.
  intros [F H] (vs & E & Hd). destruct (H _ _ E) as (vs' & E' & A).
  exists vs'. split; [done|].
  intros y Hy Ny. apply list_elem_of_lookup in Hy as [i Hi].
  destruct (Forall2_lookup_r _ _ _ _ _ A Hi) as (a & Ha & (N & _ & [S|[S _]])); [|done].
  rewrite S. apply Hd; [by eapply list_elem_of_lookup_2 | congruence].
Qed.

Lemma disable_in_all n vs x :
  x ∈ disable_in n vs -> v_name x = n -> v_state x = DISABLED.
Proof.
  unfold disable_in. intros Hx Nx. apply list_elem_of_fmap in Hx as (a & -> & Ha).
  destruct (decide (v_name a = n)); [done|]. done.
Qed.

Lemma disable_unless_kept_disables v w r w' :
  disable_unless_kept keep v w = (r, w') ->
  v_name v <> keep -> v_state v = ENABLED -> can_disable (v_name v) w ->
  all_disabled (v_name v) w'.
Proof.
  intros H Hn Hs (Hf & vs & E & (x & Hx & Nx) & Hd). unfold disable_unless_kept in H.
  destruct (decide (v_name v = keep)); [done|].
  destruct (decide (v_state v = ENABLED)); [|done].
  revert H. unfold try_except, disable_secret_version, call, bind, emit, modify, ret.
  simpl. rewrite Hf, E. simpl. unfold find_version.
  destruct (find _ vs) as [y|] eqn:Ef.
  - apply find_some in Ef as [Hy Ny]. apply bool_decide_eq_true in Ny.
    apply list_elem_of_In in Hy. specialize (Hd y Hy Ny).
    destruct (v_state y) eqn:Sy; [| |done]; intros [= <- <-];
      (exists (disable_in (v_name v) vs); simpl; split;
       [by rewrite lookup_alter_eq, E | intros ?; apply disable_in_all]).
  - exfalso. apply list_elem_of_In in Hx.
    eapply (find_none _ _ Ef) in Hx. by rewrite bool_decide_eq_false in Hx.
Qed.

Lemma sweep_disables vs w w' v :
  for_each vs (disable_unless_kept keep) w = (Ok tt, w') ->
  v ∈ vs -> v_name v <> keep -> v_state v = ENABLED -> can_disable (v_name v) w ->
  all_disabled (v_name v) w'.
Proof.
  revert w. induction vs as [|x vs IH]; intros w H Hv Hn Hs Hc.
  - by apply elem_of_nil in Hv.
  - simpl in H. apply bind_ok in H as ([] & w1 & E & H).
    apply elem_of_cons in Hv as [->|Hv].
    + eapply evolves_all_disabled; [exact (sweep_evolves _ _ _ _ H)|].
      by eapply disable_unless_kept_disables.
    + eapply IH; try done.
      eapply evolves_can_disable; [exact (disable_unless_kept_evolves _ _ _ _ _ E)|done].
Qed.
End Sweep.

Lemma ensure_secret_fixed self name : keeps fixed (GCPSecretStorage.ensure_secret self name).
Proof. keeps_auto. Qed.

Lemma page_break_fault fault offset n i e :
  page_break fault offset n = Some (i, e) -> fault i = Some e.
Proof.
  revert offset. induction n as [|n IH]; intros offset; simpl; [done|].
  destruct (fault offset) eqn:E; [by intros [= <- <-] | apply IH].
Qed.

Lemma page_break_none fault offset n :
  (forall i, fault i = None) -> page_break fault offset n = None.
Proof.
  intros H. revert offset. induction n as [|n IH]; intros offset; simpl; [done|].
  by rewrite H.
Qed.

(** A pager that is not broken yields every version. *)
Lemma paged_whole w parent vs :
  broken (paged w parent vs) = None -> items (paged w parent vs) = vs.
Proof. unfold paged. by destruct (page_break _ _ _) as [[i e]|]. Qed.

Lemma paged_broken w parent vs e :
  broken (paged w parent vs) = Some e ->
  exists i, w_api_fault w (ListSecretVersionsPage parent i) = Some e.
Proof.
  unfold paged. destruct (page_break _ _ _) as [[i e']|] eqn:E; [|done].
  intros [= <-]. exists i. by apply page_break_fault in E.
Qed.

Lemma disable_prior_versions_evolves self name keep :
  keeps (evolves keep) (GCPSecretStorage._disable_prior_versions self name keep).
Proof.
  unfold GCPSecretStorage._disable_prior_versions.
  apply keeps_bind; [tc_solve | |].
  - apply keeps_try_except; [tc_solve | | intros; apply keeps_ret; tc_solve].
    apply keeps_bind; [tc_solve | | intros; apply keeps_ret; tc_solve].
    unfold list_secret_versions. apply keeps_call; [tc_solve | apply evolves_emit |].
    intros w r w'. destruct (w_secrets w !! _); intros [= <- <-]; reflexivity.
  - intros [pg|]; [|apply keeps_ret; tc_solve].
    apply keeps_bind; [tc_solve | apply (sweep_evolves keep) |].
    intros _. destruct (broken pg); [apply keeps_raise | apply keeps_ret]; tc_solve.
Qed.

(** What the best-effort disabling does from the world [w2] in which the
    new version [keep] was just added. *)
Lemma disable_prior_versions_run self name keep w2 r w3 :
  let parent := GCPSecretStorage._secret_path self name in
  GCPSecretStorage._disable_prior_versions self name keep w2 = (r, w3) ->
  exists dis,
    w_trace w3 = w_trace w2 ++ dis
    /\ Forall housekeeping dis
    /\ evolves keep w2 w3
    /\ (r = Ok tt ->
        w_api_fault w2 (ListSecretVersions parent) = None ->
        forall vs2 v,
          w_secrets w2 !! parent = Some vs2 ->
          v ∈ vs2 -> v_name v <> keep -> v_state v = ENABLED ->
          EvApi (DisableSecretVersion (v_name v)) ∈ dis
          /\ (can_disable (v_name v) w2 -> all_disabled (v_name v) w3))
    /\ (forall e, r = Raise e ->
          (w_api_fault w2 (ListSecretVersions parent) = Some e
           /\ GCPSecretStorage.is_GoogleAPICallError e = false)
          \/ (exists n, w_api_fault w2 (DisableSecretVersion n) = Some e
                        /\ GCPSecretStorage.is_GoogleAPICallError e = false)
          \/ (exists i, w_api_fault w2 (ListSecretVersionsPage parent i) = Some e)).
Proof.
  intros parent E.
  pose proof (disable_prior_versions_housekeeping _ _ _ _ _ _ E) as (dis & T & F).
  pose proof (disable_prior_versions_evolves _ _ _ _ _ _ E) as Ev.
  exists dis. split; [done|]. split; [done|]. split; [done|]. revert E.
  unfold GCPSecretStorage._disable_prior_versions. fold parent.
  unfold list_secret_versions, call, try_except. unfold bind at 1 2 3.
  unfold emit, modify, ret. simpl.
  destruct (w_api_fault w2 (ListSecretVersions parent)) as [e0|] eqn:Ef; simpl.
  - destruct (GCPSecretStorage.is_GoogleAPICallError e0) eqn:Ee; intros [= <- <-].
    + split; [done | done].
    + split; [done|]. intros e [= <-]. by left.
  - destruct (w_secrets w2 !! parent) as [vs2|] eqn:Es; simpl;
      [|intros [= <- <-]; split; [intros; congruence | done]].
    set (w2' := set_trace _ w2). set (pg := paged w2' parent vs2).
    change (for_each (items pg) _) with (for_each (items pg) (disable_unless_kept keep)).
    intros H. apply bind_inv in H as [([] & w3' & E3 & H)|(e & E3 & ->)].
    + destruct (broken pg) as [e|] eqn:Eb.
      * injection H as <- <-. split; [done|]. intros e' [= <-]. right. right.
        by apply paged_broken in Eb.
      * injection H as <- <-. split; [|done].
        intros _ _ vs2' v [= <-] Hv Hn Hs.
        apply paged_whole in Eb. fold pg in Eb. rewrite Eb in E3.
        assert (evolves keep w2 w2') as Ev0.
        { split; [done|]. intros s vs E. exists vs. split; [done | reflexivity]. }
        split.
        -- destruct (sweep_attempts _ _ _ _ E3) as (seg & T3 & _ & A3).
           rewrite T in T3. subst w2'. simpl in T3. rewrite <- app_assoc in T3.
           apply app_inv_head in T3. rewrite T3. apply elem_of_app. right.
           by apply A3.
        -- intros Hc. eapply sweep_disables; [exact E3 | done..|].
           by eapply evolves_can_disable.
    + split; [done|]. intros e' [= <-]. right. left.
      apply sweep_run in E3 as [?|(v & e' & _ & [= <-] & _ & _ & Hf & He)]; [done|].
      by exists (v_name v).
Qed.


Lemma append_assoc (a b c : string) : (a +:+ b) +:+ c = a +:+ b +:+ c.
Proof.
  induction a as [|x a IH]; [done|].
  change (String x ((a +:+ b) +:+ c) = String x (a +:+ b +:+ c)). by rewrite IH.
Qed.

Lemma secret_path_parent project name :
  ("projects/" +:+ project) +:+ "/secrets/" +:+ name = secret_path project name.
Proof. unfold secret_path. by rewrite append_assoc. Qed.

(** What a successful [ensure_secret] leaves: the secret exists, with the
    versions it had (none when it was just created), and no other secret
    is touched. *)
Lemma ensure_secret_ok self name w w1 :
  GCPSecretStorage.ensure_secret self name w = (Ok tt, w1) ->
  w_secrets w1 = <[GCPSecretStorage._secret_path self name :=
                     versions_of w (GCPSecretStorage._secret_path self name)]> (w_secrets w).
Proof.
  unfold versions_of. run. rewrite secret_path_parent.
  set (parent := secret_path _ _).
  destruct (w_api_fault w (GetSecret parent)) as [err|] eqn:Ef; simpl.
  - destruct (GCPSecretStorage.is_NotFound err); simpl; [|discriminate].
    destruct (w_api_fault w (CreateSecret _ _)); simpl; [discriminate|].
    destruct (w_secrets w !! parent) eqn:Es; simpl; [discriminate|].
    by intros [= <-].
  - destruct (w_secrets w !! parent) eqn:Es; simpl.
    + intros [= <-]. simpl. by rewrite insert_id.
    + destruct (w_api_fault w (CreateSecret _ _)); simpl; [discriminate|].
      rewrite Es. by intros [= <-].
Qed.

Lemma ensure_secret_existing self name w vs r w' :
  w_secrets w !! GCPSecretStorage._secret_path self name = Some vs ->
  GCPSecretStorage.ensure_secret self name w = (r, w') ->
  w_secrets w' = w_secrets w.
Proof.
  intros Es. unfold GCPSecretStorage._secret_path in Es. run.
  rewrite secret_path_parent. set (parent := secret_path _ _) in *.
  destruct (w_api_fault w (GetSecret parent)) as [err|] eqn:Ef; simpl.
  - destruct (GCPSecretStorage.is_NotFound err); simpl; [|by intros [= <- <-]].
    destruct (w_api_fault w (CreateSecret _ _)); simpl; [by intros [= <- <-]|].
    rewrite Es. by intros [= <- <-].
  - rewrite Es. by intros [= <- <-].
Qed.





(** ** The secret store, beyond a single write *)

(** X1.  [ensure_secret] only ever creates.  When it returns, the secret
    exists with exactly the versions it had (none when it was just created)
    and every other secret is as it was; a secret that existed before leaves
    the store unchanged; and a second [ensure_secret], whatever it returns,
    changes nothing. *)
Theorem ensure_secret_idempotent self name w w1 :
  let parent := GCPSecretStorage._secret_path self name in
  GCPSecretStorage.ensure_secret self name w = (Ok tt, w1) ->
  w_secrets w1 !! parent = Some (versions_of w parent)
  /\ (forall s, s <> parent -> w_secrets w1 !! s = w_secrets w !! s)
  /\ (is_Some (w_secrets w !! parent) -> w_secrets w1 = w_secrets w)
  /\ forall r w2, GCPSecretStorage.ensure_secret self name w1 = (r, w2) ->
                  w_secrets w2 = w_secrets w1.
Proof.
  intros parent E. pose proof (ensure_secret_ok _ _ _ _ E) as S1. fold parent in S1.
  split; [by rewrite S1, lookup_insert_eq|]. split; [|split].
  - intros s Hs. by rewrite S1, lookup_insert_ne.
  - intros [vs Es]. by eapply ensure_secret_existing.
  - intros r w2 E2. eapply ensure_secret_existing; [|exact E2].
    fold parent. by rewrite S1, lookup_insert_eq.
Qed.

Lemma ensure_secret_idempotent_witness :
  w_secrets Scenario.ensured.2 = w_secrets Sample.world0.
Proof.
  destruct (ensure_secret_idempotent Sample.storage "meli-tokens" Sample.world0
              Scenario.ensured.2) as (_ & _ & H & _); [vm_compute; reflexivity|].
  apply H. eexists. vm_compute. reflexivity.
Defined.

(** X2.  [read_secret] answers [None] both when the secret has no version
    to serve and when the service says NotFound; any other error of the call
    reaches the caller as it is; and in every case the secrets and the files
    are left as they were. *)
Theorem read_secret_not_found self name w :
  let ref := GCPSecretStorage._latest_version_path self name in
  let parent := GCPSecretStorage._secret_path self name in
  (w_api_fault w (AccessSecretVersion ref) = None ->
   latest_version w parent = None ->
   (GCPSecretStorage.read_secret self name w).1 = Ok None)
  /\ (w_api_fault w (AccessSecretVersion ref) = Some (GoogleAPICallError NotFound) ->
      (GCPSecretStorage.read_secret self name w).1 = Ok None)
  /\ (forall e, w_api_fault w (AccessSecretVersion ref) = Some e ->
                e <> GoogleAPICallError NotFound ->
      (GCPSecretStorage.read_secret self name w).1 = Raise e)
  /\ w_secrets (GCPSecretStorage.read_secret self name w).2 = w_secrets w
  /\ w_files (GCPSecretStorage.read_secret self name w).2 = w_files w.
Proof.
  intros ref parent. subst ref parent. unfold latest_version.
  cbv [GCPSecretStorage._latest_version_path GCPSecretStorage._secret_path].
  split; [|split; [|split; [|split]]].
  - intros Hf Hl. by exec.
  - intros Hf. by exec.
  - intros e Hf He. exec. by destruct e as [| | | | | | | | | | |[]|].
  - destruct (GCPSecretStorage.read_secret self name w) as [r w'] eqn:E.
    by apply (read_secret_unchanged self name _ w_secrets) in E.
  - destruct (GCPSecretStorage.read_secret self name w) as [r w'] eqn:E.
    by apply (read_secret_unchanged self name _ w_files) in E.
Qed.

Lemma write_secret_inv self name payload w nm w3 :
  GCPSecretStorage.write_secret self name payload w = (Ok nm, w3) ->
  exists w1 w2,
    GCPSecretStorage.ensure_secret self name w = (Ok tt, w1)
    /\ add_secret_version (GCPSecretStorage._secret_path self name) payload w1 = (Ok nm, w2)
    /\ GCPSecretStorage._disable_prior_versions self name nm w2 = (Ok tt, w3).
Proof.
  unfold GCPSecretStorage.write_secret. intros H.
  apply bind_ok in H as ([] & w1 & E1 & H).
  apply bind_ok in H as (nm' & w2 & E2 & H).
  apply bind_ok in H as ([] & w3' & E3 & H).
  injection H as <- <-. eauto.
Qed.

(** The secret after a write that returned: the new version on top,
    enabled, and below it the versions the secret had, each with its name
    and payload, enabled as before or disabled. *)
Lemma write_secret_state self name payload w nm w3 :
  let parent := GCPSecretStorage._secret_path self name in
  GCPSecretStorage.write_secret self name payload w = (Ok nm, w3) ->
  nm = VersionPath parent (S (length (versions_of w parent)))
  /\ exists rest,
       w_secrets w3 !! parent
       = Some ({| v_name := nm; v_state := ENABLED; v_data := payload |} :: rest)
       /\ Forall2 (evolve nm) (versions_of w parent) rest.
Proof.
  intros parent H. apply write_secret_inv in H as (w1 & w2 & E1 & E2 & E3).
  fold parent in E2.
  apply ensure_secret_ok in E1. fold parent in E1.
  apply add_secret_version_ok in E2 as (vs & Es1 & -> & S2 & _).
  rewrite E1, lookup_insert_eq in Es1. injection Es1 as <-.
  split; [done|].
  destruct (disable_prior_versions_run _ _ _ _ _ _ E3) as (dis & _ & _ & [_ Ev] & _).
  destruct (Ev parent ({| v_name := VersionPath parent (S (length (versions_of w parent)));
                          v_state := ENABLED; v_data := payload |}
                       :: versions_of w parent))
    as (vs3 & Es3 & A); [by rewrite S2, lookup_insert_eq|].
  apply Forall2_cons_inv_l in A as (b & rest & (N & D & S) & A & ->).
  exists rest. split; [|done]. rewrite Es3. do 2 f_equal.
  destruct b as [bn bs bd]. simpl in *. subst.
  by destruct S as [->|[_ ?]].
Qed.

(** X3.  Round trip through the secret store: once [write_secret] has
    stored a text, [read_secret] of the same secret returns that text,
    provided the service does not fail the read. *)
Theorem write_then_read_secret self name t w nm w3 :
  GCPSecretStorage.write_secret self name (encode t) w = (Ok nm, w3) ->
  w_api_fault w (AccessSecretVersion (GCPSecretStorage._latest_version_path self name)) = None ->
  (GCPSecretStorage.read_secret self name w3).1 = Ok (Some t).
Proof.
  intros H Hf.
  pose proof (write_secret_fixed _ _ _ _ _ _ H) as (_ & _ & X & _).
  apply write_secret_state in H as (_ & rest & Es & _).
  revert Hf Es. cbv [GCPSecretStorage._latest_version_path GCPSecretStorage._secret_path].
  intros Hf Es. rewrite <- X in Hf. by exec.
Qed.

Lemma write_then_read_secret_witness :
  (GCPSecretStorage.read_secret Sample.storage "meli-tokens" Scenario.written.2).1
  = Ok (Some (Doc Sample.fresh_answer)).
Proof.
  apply (write_then_read_secret Sample.storage "meli-tokens" (Doc Sample.fresh_answer)
           Sample.world0 (VersionPath Sample.secret 3));
    vm_compute; reflexivity.
Defined.

(** X4.  [write_secret] never loses history.  After a write that
    returned, the secret's newest version is the one just added, enabled,
    with the payload given, and below it every earlier version is still
    there, in order, with its name and payload; its state is the one it had
    or DISABLED. *)
Theorem write_secret_keeps_history self name payload w nm w3 :
  let parent := GCPSecretStorage._secret_path self name in
  GCPSecretStorage.write_secret self name payload w = (Ok nm, w3) ->
  exists rest,
    w_secrets w3 !! parent
    = Some ({| v_name := nm; v_state := ENABLED; v_data := payload |} :: rest)
    /\ Forall2 (fun a b => v_name b = v_name a /\ v_data b = v_data a
                           /\ (v_state b = v_state a \/ v_state b = DISABLED))
         (versions_of w parent) rest.
Proof.
  intros parent H. apply write_secret_state in H as (_ & rest & Es & A).
  exists rest. split; [done|]. eapply Forall2_impl; [exact A|].
  intros a b (N & D & S). repeat split; try done. destruct S as [S|[S _]]; auto.
Qed.

Lemma write_secret_keeps_history_witness :
  exists rest,
    w_secrets Scenario.written.2 !! Sample.secret
    = Some ({| v_name := VersionPath Sample.secret 3; v_state := ENABLED;
               v_data := Scenario.payload |} :: rest)
    /\ length rest = 2%nat.
Proof.
  destruct (write_secret_keeps_history Sample.storage "meli-tokens" Scenario.payload
              Sample.world0 (VersionPath Sample.secret 3) Scenario.written.2)
    as (rest & E & A); [vm_compute; reflexivity|].
  exists rest. split; [exact E|]. apply Forall2_length in A. by rewrite <- A.
Defined.

Lemma NoDup_fmap_eq {A B} (f : A -> B) (l : list A) x y :
  NoDup (f <$> l) -> x ∈ l -> y ∈ l -> f x = f y -> x = y.
Proof.
  intros Hnd Hx Hy Hf.
  apply list_elem_of_lookup in Hx as [i Hi]. apply list_elem_of_lookup in Hy as [j Hj].
  assert (i = j) as ->; [|congruence].
  eapply NoDup_lookup; [exact Hnd | |].
  - by rewrite list_lookup_fmap, Hi.
  - rewrite list_lookup_fmap, Hj. simpl. by rewrite Hf.
Qed.

(** X5.  When the service lists the versions and refuses no disabling,
    a write that returned leaves exactly one enabled version, the one just
    added.  (Version names are distinct and numbered no higher than the
    number of versions, as Secret Manager numbers them.) *)
Theorem write_secret_single_enabled self name payload w nm w3 :
  let parent := GCPSecretStorage._secret_path self name in
  GCPSecretStorage.write_secret self name payload w = (Ok nm, w3) ->
  w_api_fault w (ListSecretVersions parent) = None ->
  (forall n, w_api_fault w (DisableSecretVersion n) = None) ->
  NoDup (v_name <$> versions_of w parent) ->
  (forall x, x ∈ versions_of w parent ->
     exists k, v_name x = VersionPath parent k /\ (k <= length (versions_of w parent))%nat) ->
  exists vs3,
    w_secrets w3 !! parent = Some vs3
    /\ forall x, x ∈ vs3 -> (v_state x = ENABLED <-> v_name x = nm).
Proof.
  intros parent H Hl Hd Hnd Hwf.
  pose proof (write_secret_state _ _ _ _ _ _ H) as (Hnm & rest & Es & A). fold parent in Hnm, Es, A.
  apply write_secret_inv in H as (w1 & w2 & E1 & E2 & E3). fold parent in E2.
  pose proof (ensure_secret_fixed _ _ _ _ _ E1) as (_ & _ & X1 & _).
  apply ensure_secret_ok in E1. fold parent in E1.
  apply add_secret_version_ok in E2 as (vs & Es1 & _ & S2 & _ & _ & _ & (_ & _ & X2 & _)).
  rewrite E1, lookup_insert_eq in Es1. injection Es1 as <-.
  set (old := versions_of w parent) in *.
  assert (forall x, x ∈ old -> v_name x <> nm) as Hfresh.
  { intros x Hx Hn. destruct (Hwf x Hx) as (k & Hk & Hle). rewrite Hk, Hnm in Hn.
    injection Hn as Hn. lia. }
  destruct (disable_prior_versions_run _ _ _ _ _ _ E3) as (dis & _ & _ & _ & Hrun & _).
  fold parent in Hrun. specialize (Hrun eq_refl ltac:(by rewrite X2, X1)).
  eexists. split; [exact Es|]. intros y Hy.
  apply elem_of_cons in Hy as [->|Hy]; [done|].
  apply list_elem_of_lookup in Hy as [i Hi].
  destruct (Forall2_lookup_r _ _ _ _ _ A Hi) as (a & Ha & (N & D & S)).
  assert (a ∈ old) as Hin by by eapply list_elem_of_lookup_2.
  split; [|intros Hn; exfalso; apply (Hfresh a Hin); congruence].
  intros Hen. exfalso.
  destruct S as [S|[S _]]; [|congruence].
  assert (v_state a = ENABLED) as Sa by congruence.
  destruct (Hrun _ a ltac:(by rewrite S2, lookup_insert_eq)) as [_ Hdis];
    [apply elem_of_cons; by right | by apply Hfresh | done |].
  destruct Hdis as (vs3 & Es3 & Hall).
  - split; [by rewrite X2, X1|].
    destruct (Hwf a Hin) as (k & Hk & _). rewrite Hk. simpl. rewrite <- Hk.
    eexists. split; [by rewrite S2, lookup_insert_eq|]. split; [exists a; split; [apply elem_of_cons; by right | done]|].
    intros x Hx Nx. apply elem_of_cons in Hx as [->|Hx].
    + simpl in Nx. exfalso. apply (Hfresh a Hin). congruence.
    + assert (x = a) as -> by by eapply (NoDup_fmap_eq v_name). congruence.
  - destruct (Hwf a Hin) as (k & Hk & _). rewrite Hk in Es3. simpl in Es3.
    rewrite Es in Es3. injection Es3 as <-.
    assert (v_state y = DISABLED); [|congruence].
    apply Hall; [|done]. apply elem_of_cons. right. by eapply list_elem_of_lookup_2.
Qed.

Lemma write_secret_single_enabled_witness :
  exists vs3,
    w_secrets Scenario.written.2 !! Sample.secret = Some vs3
    /\ forall x, x ∈ vs3 -> (v_state x = ENABLED <-> v_name x = VersionPath Sample.secret 3).
Proof.
  apply (write_secret_single_enabled Sample.storage "meli-tokens" Scenario.payload
           Sample.world0 (VersionPath Sample.secret 3) Scenario.written.2).
  - vm_compute; reflexivity.
  - reflexivity.
  - reflexivity.
  - replace (v_name <$> versions_of Sample.world0
               (GCPSecretStorage._secret_path Sample.storage "meli-tokens"))
      with [VersionPath Sample.secret 2; VersionPath Sample.secret 1]
      by (vm_compute; reflexivity).
    apply NoDup_cons. split; [|apply NoDup_singleton].
    intros H. apply list_elem_of_singleton in H. discriminate.
  - replace (versions_of Sample.world0
               (GCPSecretStorage._secret_path Sample.storage "meli-tokens"))
      with [Sample.stored 2 ENABLED Sample.old_tokens; Sample.stored 1 ENABLED Sample.old_tokens]
      by (vm_compute; reflexivity).
    intros x Hx. apply elem_of_cons in Hx as [->|Hx].
    + exists 2%nat. split; [reflexivity | simpl; lia].
    + apply list_elem_of_singleton in Hx as ->.
      exists 1%nat. split; [reflexivity | simpl; lia].
Defined.

(** ** The file cache *)

(** X6.  For a token file whose path can be examined ([Path.exists()]
    answers), nothing that goes wrong while the file is decoded and parsed
    gets out of [_load_tokens_from_file]: it returns the JSON document the
    file holds, as it is, and [{}] when the file is missing, is not UTF-8,
    is blank or is not JSON; it logs one warning when the file is there and
    cannot be read as JSON, and nothing otherwise; the files and the secrets
    are left as they were. *)
Theorem load_tokens_from_file_soft_fails self w :
  exists w',
    TokenRotator._load_tokens_from_file self w
      = (Ok (cache_content w (TokenRotator._token_file self)), w')
    /\ w_files w' = w_files w /\ w_secrets w' = w_secrets w
    /\ w_trace w' =
         w_trace w ++
         match w_files w !! TokenRotator._token_file self with
         | None | Some (Utf8 (Doc _)) => []
         | Some _ => [EvLog "WARNING" "Failed to read tokens from %s: %s"]
         end.
Proof.
  unfold cache_content.
  destruct (w_files w !! TokenRotator._token_file self) as [[|[| |v]]|] eqn:E;
    exec; eexists; (split; [reflexivity|]); simpl; by rewrite ?app_nil_r.
Qed.

(** X7.  Round trip through the file cache: what [_write_tokens_file] has
    written, [_load_tokens_from_file] reads back, and reading changes
    nothing. *)
Theorem write_then_load_tokens_file self v w w1 :
  TokenRotator._write_tokens_file self v w = (Ok tt, w1) ->
  TokenRotator._load_tokens_from_file self w1 = (Ok v, w1).
Proof.
  intros H. apply write_tokens_file_ok in H as (_ & F & _).
  assert (w_files w1 !! TokenRotator._token_file self = Some (Utf8 (Doc v))) as E
    by by rewrite F, lookup_insert_eq.
  by exec.
Qed.

Lemma write_then_load_tokens_file_witness :
  TokenRotator._load_tokens_from_file (Sample.rotator Sample.old_tokens) Scenario.cached.2
  = (Ok Sample.fresh_answer, Scenario.cached.2).
Proof.
  apply (write_then_load_tokens_file _ _ Sample.world0). vm_compute. reflexivity.
Defined.

(** ** What a refresh cycle leaves behind *)

Lemma truthy_dict_lookup (d : gmap string json) k x :
  d !! k = Some x -> truthy (JDict d) = true.
Proof.
  intros H. unfold truthy. apply negb_true_iff, Nat.eqb_neq.
  intros Hs. apply map_size_empty_iff in Hs. by rewrite Hs, lookup_empty in H.
Qed.

(** X8.  After a refresh cycle that returned, the rotator holds in memory
    the token set it returned, and a rotator started in the world the cycle
    left would adopt that very token set from the file cache, touching
    nothing. *)
Theorem refreshed_tokens_are_adopted self w v self' w' :
  TokenRotator.refresh_once (self, w) = (Ok v, (self', w')) ->
  TokenRotator._tokens self' = v
  /\ TokenRotator._bootstrap_tokens self' w' = (Ok v, w').
Proof.
  intros H. apply refresh_once_ok in H
    as (tokens & rt & resp & payload & td & pre & api & H). simpl in H.
  destruct H as (_ & _ & _ & _ & -> & Ka & _ & _ & _ & _ & _ & _ & _ & -> & F & _).
  split; [done|].
  assert (w_files w' !! TokenRotator._token_file self = Some (Utf8 (Doc (JDict td)))) as E
    by by rewrite F, lookup_insert_eq.
  pose proof (truthy_dict_lookup _ _ _ Ka) as Ht.
  by exec.
Qed.

Lemma refreshed_tokens_are_adopted_witness :
  TokenRotator._tokens Sample.cycle0.2.1 = Sample.value JNull Sample.cycle0.1
  /\ TokenRotator._bootstrap_tokens Sample.cycle0.2.1 Sample.cycle0.2.2
     = (Ok (Sample.value JNull Sample.cycle0.1), Sample.cycle0.2.2).
Proof.
  apply (refreshed_tokens_are_adopted (Sample.rotator Sample.old_tokens) Sample.world0).
  vm_compute. reflexivity.
Defined.

Lemma request_refresh_posts_once self rt w r w1 :
  TokenRotator._request_refresh self rt w = (r, w1) ->
  w_posts w1 = S (w_posts w)
  /\ posted (w_trace w1) = posted (w_trace w) ++ [TokenRotator.refresh_request self rt].
Proof.
  run. destruct (w_endpoint w (w_posts w) _) as [resp|]; simpl.
  - destruct ((400 <=? status_code resp) && (status_code resp <? 600)); simpl.
    + intros [= <- <-]. simpl. unfold posted. rewrite !omap_app. simpl.
      by rewrite app_nil_r.
    + destruct (body resp); simpl; intros [= <- <-]; simpl; unfold posted;
        by rewrite !omap_app.
  - intros [= <- <-]. simpl. unfold posted. by rewrite !omap_app.
Qed.

Lemma posted_no_post seg : Forall no_post seg -> posted seg = [].
Proof. induction 1 as [|[] ? ? ? IH]; try done. Qed.

(** A refresh cycle posts at most once, and only its refresh request. *)
Lemma refresh_once_posts s r s' :
  TokenRotator.refresh_once s = (r, s') ->
  posted (w_trace s'.2) = posted (w_trace s.2)
  \/ exists rt, posted (w_trace s'.2)
                = posted (w_trace s.2) ++ [TokenRotator.refresh_request s.1 rt].
Proof.
  destruct s as [self w]. unfold TokenRotator.refresh_once. intros H.
  rewrite (bind_run _ _ _ self (self, w)) in H by reflexivity.
  apply bind_inv in H as [(held & s1 & E1 & H)|(e & E1 & ->)];
    [|left; by injection E1 as _ <-].
  injection E1 as _ <-.
  apply bind_inv in H as [(rt & s2 & E2 & H)|(e & E2 & ->)].
  - assert (keeps (in_env (grows no_post))
              (or_else held
                 (v <- TokenRotator.env
                         (ConfigManager.require (TokenRotator._config self)
                            "MELI_REFRESH_TOKEN") ;; ret (JStr v)))) as Hpre
      by keeps_cycle.
    assert (keeps same_self
              (or_else held
                 (v <- TokenRotator.env
                         (ConfigManager.require (TokenRotator._config self)
                            "MELI_REFRESH_TOKEN") ;; ret (JStr v)))) as Hself
      by keeps_cycle.
    pose proof (Hself _ _ _ E2) as Es. apply Hpre in E2 as (seg & T2 & F2).
    destruct s2 as [self2 w2]. unfold same_self in Es. simpl in *. subst self2.
    match type of H with
    | bind _ ?k _ = _ =>
        assert (forall p, keeps (in_env (grows no_post)) (k p)) as Hk
          by (intros p; keeps_cycle)
    end.
    apply bind_inv in H as [(payload & s3 & E3 & H)|(e & E3 & ->)].
    + apply env_ok in E3 as (w3 & E3 & ->).
      apply request_refresh_posts_once in E3 as [_ P3].
      apply Hk in H as (seg' & T' & F'). unfold in_env in *. simpl in *.
      right. exists rt. rewrite T', posted_app, P3, T2, posted_app.
      by rewrite (posted_no_post seg), (posted_no_post seg'), !app_nil_r.
    + unfold TokenRotator.env in E3.
      destruct (TokenRotator._request_refresh self rt w2) as [r3 w3] eqn:E.
      injection E3 as -> <-. apply request_refresh_posts_once in E as [_ P3].
      right. exists rt. simpl. rewrite P3, T2, posted_app.
      by rewrite (posted_no_post seg), !app_nil_r.
  - assert (keeps (in_env (grows no_post))
              (or_else held
                 (v <- TokenRotator.env
                         (ConfigManager.require (TokenRotator._config self)
                            "MELI_REFRESH_TOKEN") ;; ret (JStr v)))) as Hpre
      by keeps_cycle.
    apply Hpre in E2 as (seg & T2 & F2). unfold in_env in *. simpl in *.
    left. by rewrite T2, posted_app, (posted_no_post seg), app_nil_r.
Qed.

(** X10.  When the token endpoint cannot be reached, or answers the
    refresh with a 4xx or 5xx status, [refresh_once] raises (the transport
    error as it is, the status as RuntimeError "Token refresh failed"), the
    rotator keeps the token set it had, the files and the secrets are as
    they were, and exactly one request was posted. *)
Theorem refresh_once_endpoint_failure self w tokens fb :
  TokenRotator._tokens self = JDict tokens ->
  let held := default JNull (tokens !! "refresh_token") in
  (truthy held = false -> TokenRotator._config self !! "MELI_REFRESH_TOKEN" = Some fb) ->
  let rt := if truthy held then held else JStr fb in
  let answer := w_endpoint w (w_posts w) (TokenRotator.refresh_request self rt) in
  (answer = None
   \/ exists resp, answer = Some resp
                   /\ (400 <=? status_code resp) && (status_code resp <? 600) = true) ->
  exists w',
    TokenRotator.refresh_once (self, w)
      = (Raise (if answer is Some _ then RuntimeError "Token refresh failed"
                else RequestException), (self, w'))
    /\ w_files w' = w_files w /\ w_secrets w' = w_secrets w
    /\ posted (w_trace w') = posted (w_trace w) ++ [TokenRotator.refresh_request self rt].
Proof.
  intros Htok held Hfb rt answer Ha. subst held rt answer.
  destruct (truthy (default JNull (tokens !! "refresh_token"))) eqn:Eh;
    [|specialize (Hfb eq_refl)];
    (destruct Ha as [Ea|(resp & Ea & Es)]; rewrite Ea);
    run_cycle; use_hyps; eexists; (split; [reflexivity|]); simpl;
    unfold posted; rewrite !omap_app; simpl; by rewrite ?app_nil_r.
Qed.

Lemma refresh_once_endpoint_failure_witness :
  exists w',
    TokenRotator.refresh_once (Sample.rotator Sample.old_tokens, Sample.flaky_world)
    = (Raise (RuntimeError "Token refresh failed"), (Sample.rotator Sample.old_tokens, w'))
    /\ w_secrets w' = Sample.seeded.
Proof.
  destruct (refresh_once_endpoint_failure (Sample.rotator Sample.old_tokens)
              Sample.flaky_world
              {[ "access_token" := JStr "A1"; "refresh_token" := JStr "R" ]} "")
    as (w' & E & _ & S & _).
  - vm_compute. reflexivity.
  - discriminate.
  - right. eexists. split; reflexivity.
  - exists w'. split; [exact E | exact S].
Defined.

(** A cycle that returned wrote the token set it returns to the secret:
    the worlds before and after that write. *)
Lemma refresh_once_persisted self w v self' w' :
  TokenRotator.refresh_once (self, w) = (Ok v, (self', w')) ->
  exists w6 w7 nm,
    GCPSecretStorage.write_secret (TokenRotator._secret_storage self)
      (TokenRotator._tokens_secret_name self) (encode (json_dumps v)) w6 = (Ok nm, w7)
    /\ fixed w w6 /\ w_secrets w6 = w_secrets w
    /\ fixed w7 w' /\ w_secrets w' = w_secrets w7.
Proof.
  unfold TokenRotator.refresh_once. intros H.
  apply bind_ok in H as (self0 & s0 & E0 & H). injection E0 as <- <-.
  apply bind_ok in H as (held & s1 & E1 & H). apply lift_result_ok in E1 as [_ ->].
  apply bind_ok in H as (rt & [self2 w2] & E2 & H).
  assert (self2 = self /\ fixed w w2 /\ w_secrets w2 = w_secrets w) as (-> & X2 & S2).
  { match type of E2 with
    | ?m _ = _ =>
        assert (keeps same_self m) as K1 by keeps_cycle;
        assert (keeps (in_env fixed) m) as K2 by keeps_cycle;
        assert (keeps (in_env (same w_secrets)) m) as K3 by keeps_cycle
    end.
    split; [exact (K1 _ _ _ E2)|]. split; [exact (K2 _ _ _ E2) | exact (K3 _ _ _ E2)]. }
  apply bind_ok in H as (payload & s3 & E3 & H).
  apply env_ok in E3 as (w3 & E3 & ->).
  apply request_refresh_ok in E3 as (resp & _ & _ & _ & _ & _ & S3 & _ & X3).
  apply bind_ok in H as (now & s4 & E4 & H).
  apply env_ok in E4 as (w4 & E4 & ->). injection E4 as _ <-.
  apply bind_ok in H as (a & s5 & E5 & H). apply lift_result_ok in E5 as [_ ->].
  apply bind_ok in H as (r & s5 & E5 & H). apply lift_result_ok in E5 as [_ ->].
  apply bind_ok in H as (ty & s5 & E5 & H). apply lift_result_ok in E5 as [_ ->].
  apply bind_ok in H as (sc & s5 & E5 & H). apply lift_result_ok in E5 as [_ ->].
  apply bind_ok in H as (ei & s5 & E5 & H). apply lift_result_ok in E5 as [_ ->].
  apply bind_ok in H as (ei' & s5 & E5 & H). apply lift_result_ok in E5 as [_ ->].
  apply bind_ok in H as (td & s5 & E5 & H).
  assert (s5 = (self, w3)) as ->.
  { destruct (truthy ei').
    - apply bind_ok in E5 as (n & s & E5 & R5). apply lift_result_ok in E5 as [_ ->].
      by injection R5.
    - by injection E5. }
  destruct (negb _); [discriminate|].
  apply bind_ok in H as ([] & s6 & E6 & H).
  unfold TokenRotator.assign_tokens in E6.
  apply bind_ok in E6 as ([] & s & E6 & R6).
  apply env_ok in E6 as (w5 & E6 & ->). injection E6 as <-. injection R6 as <-.
  apply bind_ok in H as ([] & s7 & E7 & H).
  apply env_ok in E7 as (w6 & E7 & ->).
  apply write_tokens_file_ok in E7 as (_ & _ & _ & S7 & _ & X7).
  apply bind_ok in H as (nm & s8 & E8 & H).
  apply env_ok in E8 as (w7 & E8 & ->).
  apply bind_ok in H as ([] & s9 & E9 & H).
  apply env_ok in E9 as (w8 & E9 & ->). injection E9 as <-.
  injection H as <- <- <-.
  exists w6, w7, nm. split; [exact E8|]. split; [|split; [|split]].
  - etrans; [exact X2|]. etrans; [exact X3|]. etrans; [|exact X7]. by repeat split.
  - rewrite S7. simpl. by rewrite S3.
  - by repeat split.
  - done.
Qed.

(** X11.  What the rotator refreshes, the readers see.  After a refresh
    cycle that returned, in a process configured for the same secret and
    project, [get_token_payload] returns the token set the cycle returned
    and [get_access_token] its access token (the service not failing the
    read). *)
Theorem reader_sees_refreshed_token self w v self' w' :
  let project := GCPSecretStorage._project_id (TokenRotator._secret_storage self) in
  let parent := secret_path project (TokenRotator._tokens_secret_name self) in
  TokenRotator.refresh_once (self, w) = (Ok v, (self', w')) ->
  w_config w !! "MELI_TOKENS_SECRET_NAME" = Some (TokenRotator._tokens_secret_name self) ->
  w_config w !! "GCP_PROJECT_ID" = Some project ->
  project <> "" ->
  w_api_fault w (AccessSecretVersion (LatestPath parent)) = None ->
  (get_token_payload w').1 = Ok v
  /\ exists a, dict_get v "access_token" = Ok a /\ (get_access_token w').1 = Ok a.
Proof.
  intros project parent H Hn Hp Hne Hf.
  pose proof (refresh_once_persisted _ _ _ _ _ H) as (w6 & w7 & nm & E & X6 & S6 & X7 & S7).
  apply write_secret_state in E as (_ & rest & Es & _).
  unfold GCPSecretStorage._secret_path in Es. fold project parent in Es.
  rewrite <- S7 in Es.
  pose proof (refresh_once_fixed _ _ _ H) as (Xc & _ & Xf & _). simpl in Xc, Xf.
  rewrite <- Xc in Hn, Hp. rewrite <- Xf in Hf.
  apply String.eqb_neq in Hne.
  apply refresh_once_ok in H
    as (tokens & rt & resp & payload & td & pre & api & H). simpl in H.
  destruct H as (_ & _ & _ & _ & -> & Ka & Kt & _).
  subst parent. split; [by exec|]. eexists. split; [reflexivity|]. simpl.
  by exec.
Qed.

Lemma reader_sees_refreshed_token_witness :
  (get_token_payload Sample.cycle0.2.2).1 = Ok (Sample.value JNull Sample.cycle0.1)
  /\ (get_access_token Sample.cycle0.2.2).1 = Ok (JStr "A2").
Proof.
  destruct (reader_sees_refreshed_token (Sample.rotator Sample.old_tokens) Sample.world0
              (Sample.value JNull Sample.cycle0.1) Sample.cycle0.2.1 Sample.cycle0.2.2)
    as (Hp & a & Ea & Ha);
    [vm_compute; reflexivity | reflexivity | reflexivity | discriminate | reflexivity |].
  split; [exact Hp|]. rewrite Ha, <- Ea. vm_compute. reflexivity.
Defined.

(** ** The token readers *)

(** X15.  The token readers only read.  Whatever [get_token_payload] or
    [get_access_token] returns or raises, the files, the secrets and the
    clock are as they were, and all that happened are configuration lookups
    and reads of the secret. *)
Theorem token_reader_is_read_only w r w' :
  get_access_token w = (r, w') \/ get_token_payload w = (r, w') ->
  w_files w' = w_files w /\ w_secrets w' = w_secrets w /\ w_clock w' = w_clock w
  /\ exists seg, w_trace w' = w_trace w ++ seg /\ Forall reader_event seg.
Proof.
  assert (forall X (f : world -> X), (forall t w, f (set_trace t w) = f w) ->
            keeps (same f) get_token_payload) as Hp.
  { intros X f Hf. unfold get_token_payload.
    keeps_auto; try (apply same_emit; exact Hf). }
  assert (keeps (grows reader_event) get_token_payload) as Hg
    by (unfold get_token_payload; keeps_auto).
  intros [H|H].
  - unfold get_access_token in H.
    apply bind_inv in H as [(d & w1 & E & H)|(e & E & _)].
    + assert (w' = w1) as ->.
      { apply bind_inv in H as [(t & w2 & E2 & H)|(e & E2 & _)].
        - injection E2 as _ <-. by destruct (negb _); injection H.
        - by injection E2. }
      split; [exact (Hp _ w_files ltac:(done) _ _ _ E)|].
      split; [exact (Hp _ w_secrets ltac:(done) _ _ _ E)|].
      split; [exact (Hp _ w_clock ltac:(done) _ _ _ E) | exact (Hg _ _ _ E)].
    + split; [exact (Hp _ w_files ltac:(done) _ _ _ E)|].
      split; [exact (Hp _ w_secrets ltac:(done) _ _ _ E)|].
      split; [exact (Hp _ w_clock ltac:(done) _ _ _ E) | exact (Hg _ _ _ E)].
  - split; [exact (Hp _ w_files ltac:(done) _ _ _ H)|].
    split; [exact (Hp _ w_secrets ltac:(done) _ _ _ H)|].
    split; [exact (Hp _ w_clock ltac:(done) _ _ _ H) | exact (Hg _ _ _ H)].
Qed.

Lemma token_reader_is_read_only_witness :
  w_secrets (get_access_token Sample.world0).2 = Sample.seeded
  /\ w_files (get_access_token Sample.world0).2 = ∅.
Proof.
  destruct (token_reader_is_read_only Sample.world0 (get_access_token Sample.world0).1
              (get_access_token Sample.world0).2) as (F & S & _);
    [left; by destruct (get_access_token Sample.world0)|].
  split; [exact S | exact F].
Defined.

(** ** Construction of the rotator *)

(** X18.  The interval [run_forever] sleeps is never zero: an argument
    other than zero wins, an argument of zero counts as no argument, then
    the configured interval is taken unless it is zero, and the four-hour
    default otherwise. *)
Theorem interval_of_never_zero self interval_seconds :
  let configured := TokenRotator.rotation_interval_seconds self in
  TokenRotator.interval_of self interval_seconds <> 0
  /\ (forall n, n <> 0 -> TokenRotator.interval_of self (Some n) = n)
  /\ TokenRotator.interval_of self (Some 0) = TokenRotator.interval_of self None
  /\ (configured <> 0 -> TokenRotator.interval_of self None = configured)
  /\ (configured = 0 -> TokenRotator.interval_of self None = DEFAULT_ROTATION_INTERVAL).
Proof.
  unfold TokenRotator.interval_of, TokenRotator.int_or. simpl.
  destruct (TokenRotator.rotation_interval_seconds self =? 0) eqn:Er.
  - apply Z.eqb_eq in Er. repeat split; try done.
    + destruct interval_seconds as [n|]; [|done].
      destruct (n =? 0) eqn:En; [done | by apply Z.eqb_neq].
    + intros n Hn. by apply Z.eqb_neq in Hn as ->.
  - apply Z.eqb_neq in Er. repeat split; try done.
    + destruct interval_seconds as [n|]; [|done].
      destruct (n =? 0) eqn:En; [done | by apply Z.eqb_neq].
    + intros n Hn. by apply Z.eqb_neq in Hn as ->.
Qed.

Ltac run_init :=
  cbv beta iota zeta delta [
    TokenRotator.__init__ GCPSecretStorage.__init__
    ConfigManager.require load_config Path
    modify bind ret raise emit lift_result ];
  simpl.

(** X17.  When one of the four settings the rotator requires is missing,
    its construction raises the configuration error of a missing one of
    them, after configuration lookups only: the files and the secrets are
    untouched. *)
Theorem init_requires_configuration w key :
  key ∈ required_keys -> w_config w !! key = None ->
  exists k w' seg,
    TokenRotator.__init__ w = (Raise (ConfigError k), w')
    /\ k ∈ required_keys /\ w_config w !! k = None
    /\ w_files w' = w_files w /\ w_secrets w' = w_secrets w
    /\ w_trace w' = w_trace w ++ seg /\ Forall is_require seg.
Proof.
  intros Hk Hnone.
  destruct (w_config w !! "MELI_APP_ID") as [a|] eqn:E1;
    [destruct (w_config w !! "MELI_CLIENT_SECRET") as [b|] eqn:E2;
     [destruct (w_config w !! "MELI_TOKENS_SECRET_NAME") as [c|] eqn:E3;
      [destruct (w_config w !! "GCP_PROJECT_ID") as [d|] eqn:E4|]|]|].
  - exfalso. unfold required_keys in Hk.
    repeat (apply elem_of_cons in Hk as [->|Hk]; [congruence|]).
    by apply elem_of_nil in Hk.
  - run_init. use_hyps. eexists "GCP_PROJECT_ID", _, _. split; [reflexivity|].
    simpl. rewrite <- !app_assoc. simpl.
    repeat split; try done; by repeat constructor.
  - run_init. use_hyps. eexists "MELI_TOKENS_SECRET_NAME", _, _. split; [reflexivity|].
    simpl. rewrite <- !app_assoc. simpl.
    repeat split; try done; by repeat constructor.
  - run_init. use_hyps. eexists "MELI_CLIENT_SECRET", _, _. split; [reflexivity|].
    simpl. rewrite <- ?app_assoc. simpl.
    repeat split; try done; by repeat constructor.
  - run_init. use_hyps. eexists "MELI_APP_ID", _, _. split; [reflexivity|].
    simpl. repeat split; try done; by repeat constructor.
Qed.

Lemma init_requires_configuration_witness :
  exists w',
    TokenRotator.__init__ (Scenario.with_config (delete "GCP_PROJECT_ID" Sample.config)
                             Sample.world0)
    = (Raise (ConfigError "GCP_PROJECT_ID"), w').
Proof.
  destruct (init_requires_configuration
              (Scenario.with_config (delete "GCP_PROJECT_ID" Sample.config) Sample.world0)
              "GCP_PROJECT_ID")
    as (k & w' & seg & E & Hk & Hn & _).
  - unfold required_keys. do 3 (apply elem_of_cons; right). apply elem_of_cons. by left.
  - vm_compute. reflexivity.
  - exists w'. rewrite E. repeat f_equal.
    unfold required_keys in Hk.
    repeat (apply elem_of_cons in Hk as [->|Hk]; [try discriminate Hn|]);
      [reflexivity | by apply elem_of_nil in Hk].
Defined.

Lemma require_found cfg key v w :
  cfg !! key = Some v ->
  ConfigManager.require cfg key w = (Ok v, set_trace (w_trace w ++ [EvRequire key]) w).
Proof. intros E. unfold ConfigManager.require, bind, emit, modify. simpl. by rewrite E. Qed.

Lemma Path_get (cfg : gmap string string) key d (w : world) :
  Path (ConfigManager.get cfg key (JStr d)) w = (Ok (default d (cfg !! key)), w).
Proof. unfold ConfigManager.get. by destruct (cfg !! key). Qed.

(** With nothing in the file and no version of the secret, the rotator has
    nothing to start from. *)
Lemma bootstrap_tokens_nothing self w :
  let parent := GCPSecretStorage._secret_path (TokenRotator._secret_storage self)
                  (TokenRotator._tokens_secret_name self) in
  truthy (cache_content w (TokenRotator._token_file self)) = false ->
  w_api_fault w (AccessSecretVersion (LatestPath parent)) = None ->
  latest_version w parent = None ->
  exists w',
    TokenRotator._bootstrap_tokens self w
      = (Raise (RuntimeError
           "No existing tokens found. Run the initializer to obtain the first token set."),
         w')
    /\ posted (w_trace w') = posted (w_trace w)
    /\ w_files w' = w_files w /\ w_secrets w' = w_secrets w.
Proof.
  intros parent. subst parent. unfold cache_content, latest_version.
  cbv [GCPSecretStorage._secret_path]. intros Hc Hf Hl.
  destruct (w_files w !! TokenRotator._token_file self) as [[|[| |c]]|] eqn:E;
    simpl in Hc; exec; rewrite ?truthy_empty_dict; simpl;
    eexists; (split; [reflexivity|]); simpl;
    unfold posted; rewrite ?omap_app; simpl; by rewrite ?app_nil_r.
Qed.

(** X16.  Rotation cannot start from nothing.  With the required settings
    in place (and no rotation interval configured), a token file that holds
    no truthy JSON document and a secret without versions, the module-level
    [refresh_once] and [run_rotation_loop] both raise the "No existing tokens
    found" error while the rotator is constructed: no request is posted, the
    loop is never entered, and the files and the secrets are as they were. *)
Theorem rotation_needs_bootstrapped_tokens w app_id client_secret secret_name project :
  w_config w !! "MELI_APP_ID" = Some app_id ->
  w_config w !! "MELI_CLIENT_SECRET" = Some client_secret ->
  w_config w !! "MELI_TOKENS_SECRET_NAME" = Some secret_name ->
  w_config w !! "GCP_PROJECT_ID" = Some project -> project <> "" ->
  w_config w !! "ROTATION_INTERVAL_SECONDS" = None ->
  let path := default "tokens.json" (w_config w !! "MELI_TOKEN_FILE") in
  let parent := secret_path project secret_name in
  truthy (cache_content w path) = false ->
  w_api_fault w (AccessSecretVersion (LatestPath parent)) = None ->
  latest_version w parent = None ->
  let failure := RuntimeError
    "No existing tokens found. Run the initializer to obtain the first token set." in
  exists w',
    refresh_once w = (Raise failure, w')
    /\ (forall turns interval_seconds,
          run_rotation_loop turns interval_seconds w = (Raise failure, w'))
    /\ posted (w_trace w') = posted (w_trace w)
    /\ w_files w' = w_files w /\ w_secrets w' = w_secrets w.
Proof.
  intros H1 H2 H3 H4 Hne Hi path parent Hc Hf Hl failure.
  apply String.eqb_neq in Hne.
  assert (exists w', TokenRotator.__init__ w = (Raise failure, w')
                     /\ posted (w_trace w') = posted (w_trace w)
                     /\ w_files w' = w_files w /\ w_secrets w' = w_secrets w)
    as (w' & E & P & F & S).
  { unfold TokenRotator.__init__.
    rewrite (bind_run _ _ _ (w_config w) w) by reflexivity.
    erewrite bind_run by (by apply require_found).
    erewrite bind_run by (by apply require_found).
    erewrite bind_run by (by apply require_found).
    erewrite bind_run by (by apply require_found).
    erewrite bind_run by apply Path_get.
    unfold ConfigManager.get at 1. rewrite Hi.
    erewrite bind_run by reflexivity.
    unfold GCPSecretStorage.__init__ at 1. rewrite Hne.
    erewrite bind_run by reflexivity.
    lazymatch goal with
    | |- context [bind (TokenRotator._bootstrap_tokens ?self) _ ?w0] =>
        destruct (bootstrap_tokens_nothing self w0) as (w' & E & P & F & S);
          [exact Hc | exact Hf | exact Hl |]
    end.
    exists w'. split; [by rewrite (bind_fail _ _ _ _ _ E)|].
    split; [|done]. rewrite P. simpl. unfold posted. rewrite !omap_app. simpl.
    by rewrite !app_nil_r. }
  exists w'. split; [|split]; [..|done].
  - unfold refresh_once. by rewrite (bind_fail _ _ _ _ _ E).
  - intros turns i. unfold run_rotation_loop. by rewrite (bind_fail _ _ _ _ _ E).
Qed.

Lemma rotation_needs_bootstrapped_tokens_witness :
  exists w',
    refresh_once (Scenario.empty_world 200 (Doc Sample.fresh_answer))
    = (Raise (RuntimeError
         "No existing tokens found. Run the initializer to obtain the first token set."), w')
    /\ posted (w_trace w') = [].
Proof.
  destruct (rotation_needs_bootstrapped_tokens
              (Scenario.empty_world 200 (Doc Sample.fresh_answer))
              "app-1" "hush" "meli-tokens" "proj")
    as (w' & E & _ & P & _); try reflexivity; [discriminate|].
  exists w'. split; [exact E | exact P].
Defined.

(** X22.  With the required settings present, a rotation interval that
    [int] rejects makes the construction of the rotator raise that error,
    and an empty project id makes it raise ValueError, in both cases before
    any token source is consulted: only configuration lookups happened, and
    the files and the secrets are untouched. *)
Theorem init_rejects_bad_interval w app_id client_secret name project e :
  w_config w !! "MELI_APP_ID" = Some app_id ->
  w_config w !! "MELI_CLIENT_SECRET" = Some client_secret ->
  w_config w !! "MELI_TOKENS_SECRET_NAME" = Some name ->
  w_config w !! "GCP_PROJECT_ID" = Some project ->
  py_int (ConfigManager.get (w_config w) "ROTATION_INTERVAL_SECONDS"
            (JInt DEFAULT_ROTATION_INTERVAL)) = Raise e
  \/ (is_ok (py_int (ConfigManager.get (w_config w) "ROTATION_INTERVAL_SECONDS"
                      (JInt DEFAULT_ROTATION_INTERVAL))) = true
      /\ project = "" /\ e = ValueError) ->
  exists w' seg,
    TokenRotator.__init__ w = (Raise e, w')
    /\ w_files w' = w_files w /\ w_secrets w' = w_secrets w
    /\ w_trace w' = w_trace w ++ seg /\ Forall is_require seg.
Proof.
  intros H1 H2 H3 H4 Hbad. unfold TokenRotator.__init__.
  rewrite (bind_run _ _ _ (w_config w) w) by reflexivity.
  erewrite bind_run by (by apply require_found).
  erewrite bind_run by (by apply require_found).
  erewrite bind_run by (by apply require_found).
  erewrite bind_run by (by apply require_found).
  erewrite bind_run by apply Path_get.
  destruct (py_int (ConfigManager.get (w_config w) "ROTATION_INTERVAL_SECONDS"
                      (JInt DEFAULT_ROTATION_INTERVAL))) as [n|e'] eqn:Ei.
  - destruct Hbad as [?|(_ & -> & ->)]; [done|].
    erewrite bind_run by reflexivity.
    eexists _, _. split; [reflexivity|]. simpl. rewrite <- !app_assoc.
    repeat split; by repeat constructor.
  - destruct Hbad as [[= ->]|(? & _)]; [|done].
    eexists _, _. split; [reflexivity|]. simpl. rewrite <- !app_assoc.
    repeat split; by repeat constructor.
Qed.

Lemma init_rejects_bad_interval_witness :
  exists w',
    TokenRotator.__init__
      (Scenario.with_config (<["ROTATION_INTERVAL_SECONDS" := "soon"]> Sample.config)
         Sample.world0)
    = (Raise ValueError, w').
Proof.
  destruct (init_rejects_bad_interval
              (Scenario.with_config (<["ROTATION_INTERVAL_SECONDS" := "soon"]> Sample.config)
                 Sample.world0)
              "app-1" "hush" "meli-tokens" "proj" ValueError)
    as (w' & seg & E & _); try (vm_compute; reflexivity).
  - left. vm_compute. reflexivity.
  - exists w'. exact E.
Defined.

Lemma init_no_post : keeps (grows no_post) TokenRotator.__init__.
Proof. unfold TokenRotator.__init__, load_config. keeps_auto. Qed.

(** X9.  One refresh is at most one request.  Whatever happens, a call of
    [TokenRotator.refresh_once] adds to the requests posted either nothing
    or its one refresh request; and so does the module-level [refresh_once],
    construction of the rotator included: that request goes to the token
    endpoint with grant type [refresh_token]. *)
Theorem refresh_once_posts_at_most_once :
  (forall s r s',
     TokenRotator.refresh_once s = (r, s') ->
     posted (w_trace s'.2) = posted (w_trace s.2)
     \/ exists rt, posted (w_trace s'.2)
                   = posted (w_trace s.2) ++ [TokenRotator.refresh_request s.1 rt])
  /\ (forall w r w',
        refresh_once w = (r, w') ->
        posted (w_trace w') = posted (w_trace w)
        \/ exists rq, posted (w_trace w') = posted (w_trace w) ++ [rq]
                      /\ url rq = TOKEN_ENDPOINT
                      /\ ("grant_type", JStr "refresh_token") ∈ data rq).
Proof.
  split; [exact refresh_once_posts|].
  intros w r w'. unfold refresh_once. intros H.
  apply bind_inv in H as [(self & w1 & E1 & H)|(e & E1 & _)].
  - apply init_no_post in E1 as (seg & T1 & F1).
    unfold TokenRotator.on in H.
    destruct (TokenRotator.refresh_once (self, w1)) as [r2 [self2 w2]] eqn:E2.
    injection H as <- <-.
    apply refresh_once_posts in E2 as [P|(rt & P)]; simpl in P.
    + left. by rewrite P, T1, posted_app, (posted_no_post seg), app_nil_r.
    + right. exists (TokenRotator.refresh_request self rt). split; [|split; [reflexivity|]].
      * by rewrite P, T1, posted_app, (posted_no_post seg), app_nil_r.
      * simpl. apply elem_of_cons. by left.
  - apply init_no_post in E1 as (seg & T1 & F1).
    left. by rewrite T1, posted_app, (posted_no_post seg), app_nil_r.
Qed.

(** ** The pace of the rotation loop *)

Lemma slept_app a b : slept (a ++ b) = slept a ++ slept b.
Proof. apply omap_app. Qed.

Lemma slept_no_sleep seg : Forall no_sleep seg -> slept seg = [].
Proof. induction 1 as [|[] ? ? ? IH]; try done. Qed.

(** A refresh attempt does not sleep. *)
Lemma refresh_once_no_sleep :
  keeps (in_env (grows no_sleep)) TokenRotator.refresh_once.
Proof. unfold TokenRotator.refresh_once. keeps_cycle. Qed.

Lemma sum_at_least (m : Z) (l : list Z) :
  Forall (fun x => m <= x) l -> Z.of_nat (length l) * m <= foldr Z.add 0 l.
Proof. induction 1 as [|x l Hx _ IH]; simpl length; simpl foldr; lia. Qed.

Lemma loop_pace interval turns s s' :
  0 < interval <= w_sleep_max s.2 ->
  TokenRotator.loop turns interval s = (Ok tt, s') ->
  exists seg,
    w_trace s'.2 = w_trace s.2 ++ seg
    /\ length (slept seg) = turns
    /\ Forall (fun secs => secs = interval \/ secs = Z.min 600 interval) (slept seg)
    /\ (length (posted seg) <= turns)%nat.
Proof.
  revert s. induction turns as [|n IH]; intros s Hpos; simpl TokenRotator.loop.
  - intros [= <-]. exists []. rewrite app_nil_r. repeat split; [done|]. simpl. lia.
  - destruct (TokenRotator.refresh_once s) as [r s1] eqn:E.
    destruct (cycle_run interval s r s1 Hpos E) as (w1 & Ec & T & _ & Hm).
    rewrite (bind_run _ _ _ _ _ Ec). intros H.
    apply IH in H as (seg & Tn & Ln & Fn & Pn); [|simpl; by rewrite Hm]. simpl in Tn.
    destruct (refresh_once_no_sleep _ _ _ E) as (att & Ta & Fa). unfold in_env in Ta.
    assert (length (posted att) <= 1)%nat as Pa.
    { apply refresh_once_posts in E as [P|(rt & P)]; rewrite Ta, posted_app in P.
      - assert (posted att = []) as ->; [|simpl; lia].
        apply (app_inv_head (posted (w_trace s.2))). by rewrite app_nil_r.
      - apply app_inv_head in P. by rewrite P. }
    set (logged := if is_ok r then [] else [EvLog "ERROR" "Token refresh failed: %s"]) in *.
    set (pause := if is_ok r then interval else Z.min 600 interval) in *.
    assert (slept logged = [] /\ posted logged = []) as [Sl Pl]
      by (subst logged; by destruct (is_ok r)).
    exists (att ++ logged ++ [EvSleep pause] ++ seg).
    split; [by rewrite Tn, T, Ta, <- !app_assoc|].
    rewrite !slept_app, !posted_app, (slept_no_sleep att), Sl, Pl by done.
    simpl. split; [by rewrite Ln|]. split; [|rewrite length_app; lia].
    constructor; [|done]. subst pause. destruct (is_ok r); [by left | by right].
Qed.

(** X21.  The pace of the rotation loop.  With an interval that
    [time.sleep] accepts, every turn of [run_forever] ends in one sleep, of
    [interval] or of [min(600, interval)] seconds: after any number of
    turns as many sleeps were made, at least [min(600, interval)] seconds
    per turn were slept, and at most one request per turn was posted. *)
Theorem run_forever_pace self w interval_seconds turns s' :
  let interval := TokenRotator.interval_of self interval_seconds in
  0 < interval <= w_sleep_max w ->
  TokenRotator.run_forever turns interval_seconds (self, w) = (Ok tt, s') ->
  exists seg,
    w_trace s'.2 = w_trace w ++ seg
    /\ length (slept seg) = turns
    /\ Forall (fun secs => secs = interval \/ secs = Z.min 600 interval) (slept seg)
    /\ Z.of_nat turns * Z.min 600 interval <= foldr Z.add 0 (slept seg)
    /\ (length (posted seg) <= turns)%nat.
Proof.
  intros interval Hpos. unfold TokenRotator.run_forever.
  rewrite (bind_run _ _ _ self (self, w)) by reflexivity. intros H.
  apply loop_pace in H as (seg & T & L & F & P); [|done].
  exists seg. split; [done|]. split; [done|]. split; [done|]. split; [|done].
  rewrite <- L. apply sum_at_least. eapply Forall_impl; [exact F|].
  simpl. intros secs [->| ->]; lia.
Qed.

Lemma run_forever_pace_witness :
  exists seg,
    w_trace Scenario.looped.2.2 = seg
    /\ length (slept seg) = 2%nat
    /\ 1200 <= foldr Z.add 0 (slept seg)
    /\ (length (posted seg) <= 2)%nat.
Proof.
  destruct (run_forever_pace (Sample.rotator Sample.old_tokens) Sample.flaky_world None 2
              Scenario.looped.2) as (seg & T & L & _ & S & P);
    [split; [reflexivity | discriminate] | vm_compute; reflexivity |].
  exists seg. split; [exact T|]. split; [exact L|]. split; [exact S | exact P].
Defined.

(** ** The first token set *)

Lemma require_ok cfg key w v w1 :
  ConfigManager.require cfg key w = (Ok v, w1) ->
  cfg !! key = Some v /\ w1 = set_trace (w_trace w ++ [EvRequire key]) w.
Proof.
  unfold ConfigManager.require, bind, emit, modify. simpl.
  destruct (cfg !! key); [by intros [= <- <-] | discriminate].
Qed.

Ltac boot_config w :=
  unfold bootstrap_tokens;
  rewrite (bind_run _ _ _ (w_config w) w) by reflexivity;
  do 5 (erewrite bind_run by (by apply require_found));
  erewrite bind_run by apply Path_get.

Ltac run_exchange :=
  cbv beta iota zeta delta [
    print input log requests_post raise_for_status response_json _write_tokens_file
    mkdir_parents write_text
    modify bind ret raise try_except emit lift_result ];
  simpl.

Ltac posted_trace :=
  simpl; unfold posted; rewrite ?omap_app; simpl; by rewrite ?app_nil_r.

(** X12.  Without an authorization code (none passed, or an empty one,
    and a blank line typed at the prompt) [bootstrap_tokens] raises
    "No auth code provided", having posted nothing and written neither the
    token file nor the secret. *)
Theorem bootstrap_tokens_needs_auth_code w auth_code
    app_id client_secret redirect_uri name project :
  w_config w !! "MELI_APP_ID" = Some app_id ->
  w_config w !! "MELI_CLIENT_SECRET" = Some client_secret ->
  w_config w !! "MELI_REDIRECT_URI" = Some redirect_uri ->
  w_config w !! "MELI_TOKENS_SECRET_NAME" = Some name ->
  w_config w !! "GCP_PROJECT_ID" = Some project ->
  code_of auth_code w = "" ->
  exists w',
    bootstrap_tokens auth_code w
      = (Raise (RuntimeError "No auth code provided; cannot bootstrap tokens."), w')
    /\ posted (w_trace w') = posted (w_trace w)
    /\ w_files w' = w_files w /\ w_secrets w' = w_secrets w.
Proof.
  intros H1 H2 H3 H4 H5 Hc. unfold code_of in Hc. boot_config w.
  destruct (not_str auth_code) eqn:En.
  - run_exchange. rewrite Hc. simpl. eexists. split; [reflexivity|].
    split; [posted_trace | done].
  - destruct auth_code as [c|]; [|done]. simpl in Hc. subst c. done.
Qed.

Lemma bootstrap_tokens_needs_auth_code_witness :
  exists w',
    bootstrap_tokens None (Scenario.empty_world 200 (Doc Sample.fresh_answer))
      = (Raise (RuntimeError "No auth code provided; cannot bootstrap tokens."), w')
    /\ posted (w_trace w') = [] /\ w_files w' = ∅ /\ w_secrets w' = ∅.
Proof.
  apply (bootstrap_tokens_needs_auth_code
           (Scenario.empty_world 200 (Doc Sample.fresh_answer)) None
           "app-1" "hush" "https://example.org/cb" "meli-tokens" "proj");
    reflexivity.
Defined.

(** X13.  A failed exchange persists nothing.  When the token endpoint
    cannot be reached, refuses the authorization code with a 4xx or 5xx
    status, or answers with a body that is not JSON, [bootstrap_tokens]
    raises (RequestException, RuntimeError "Failed to exchange authorization
    code", JSONDecodeError respectively), exactly one request was posted,
    and the files and the secrets are as they were. *)
Theorem bootstrap_tokens_exchange_failure w auth_code
    app_id client_secret redirect_uri name project :
  w_config w !! "MELI_APP_ID" = Some app_id ->
  w_config w !! "MELI_CLIENT_SECRET" = Some client_secret ->
  w_config w !! "MELI_REDIRECT_URI" = Some redirect_uri ->
  w_config w !! "MELI_TOKENS_SECRET_NAME" = Some name ->
  w_config w !! "GCP_PROJECT_ID" = Some project ->
  let code := code_of auth_code w in
  let rq := exchange_request app_id client_secret code redirect_uri in
  let answer := w_endpoint w (w_posts w) rq in
  let refused r := (400 <=? status_code r) && (status_code r <? 600) in
  code <> "" ->
  (forall resp v, answer = Some resp -> body resp = Doc v -> refused resp = true) ->
  exists w',
    bootstrap_tokens auth_code w
      = (Raise match answer with
               | None => RequestException
               | Some resp =>
                   if refused resp
                   then RuntimeError "Failed to exchange authorization code"
                   else JSONDecodeError
               end, w')
    /\ posted (w_trace w') = posted (w_trace w) ++ [rq]
    /\ w_files w' = w_files w /\ w_secrets w' = w_secrets w.
Proof.
  intros H1 H2 H3 H4 H5 code rq answer refused Hc Ha.
  subst code rq answer refused. unfold code_of, exchange_request in *.
  apply String.eqb_neq in Hc. boot_config w.
  destruct (not_str auth_code) eqn:En.
  - run_exchange. rewrite Hc. simpl.
    destruct (w_endpoint w (w_posts w) _) as [resp|] eqn:Ea; simpl.
    + destruct ((400 <=? status_code resp) && (status_code resp <? 600)) eqn:Es; simpl.
      * eexists. split; [reflexivity|]. split; [posted_trace | done].
      * destruct (body resp) as [| |v] eqn:Eb; simpl;
          try (eexists; split; [reflexivity|]; split; [posted_trace | done]).
        specialize (Ha _ _ eq_refl Eb). congruence.
    + eexists. split; [reflexivity|]. split; [posted_trace | done].
  - destruct auth_code as [c|]; [|done]. simpl in *.
    run_exchange. rewrite En. simpl.
    destruct (w_endpoint w (w_posts w) _) as [resp|] eqn:Ea; simpl.
    + destruct ((400 <=? status_code resp) && (status_code resp <? 600)) eqn:Es; simpl.
      * eexists. split; [reflexivity|]. split; [posted_trace | done].
      * destruct (body resp) as [| |v] eqn:Eb; simpl;
          try (eexists; split; [reflexivity|]; split; [posted_trace | done]).
        specialize (Ha _ _ eq_refl Eb). congruence.
    + eexists. split; [reflexivity|]. split; [posted_trace | done].
Qed.

Lemma bootstrap_tokens_exchange_failure_witness :
  exists w',
    bootstrap_tokens (Some "code-1") (Scenario.empty_world 400 Blank)
      = (Raise (RuntimeError "Failed to exchange authorization code"), w')
    /\ posted (w_trace w')
       = [exchange_request "app-1" "hush" "code-1" "https://example.org/cb"]
    /\ w_files w' = ∅ /\ w_secrets w' = ∅.
Proof.
  apply (bootstrap_tokens_exchange_failure (Scenario.empty_world 400 Blank) (Some "code-1")
           "app-1" "hush" "https://example.org/cb" "meli-tokens" "proj");
    try reflexivity; [discriminate|].
  intros resp v [= <-]. discriminate.
Defined.

(** What a bootstrap that returns has done: [w5] is the world in which the
    token file has just been written, [w6] the one the write to the secret
    leaves. *)
Lemma bootstrap_tokens_ok auth_code w v w' :
  bootstrap_tokens auth_code w = (Ok v, w') ->
  exists app_id client_secret redirect_uri name project resp pre w5 nm w6,
    let code := code_of auth_code w in
    let rq := exchange_request app_id client_secret code redirect_uri in
    let path := default "tokens.json" (w_config w !! "MELI_TOKEN_FILE") in
    w_config w !! "MELI_APP_ID" = Some app_id
    /\ w_config w !! "MELI_CLIENT_SECRET" = Some client_secret
    /\ w_config w !! "MELI_REDIRECT_URI" = Some redirect_uri
    /\ w_config w !! "MELI_TOKENS_SECRET_NAME" = Some name
    /\ w_config w !! "GCP_PROJECT_ID" = Some project
    /\ project <> "" /\ code <> ""
    /\ w_endpoint w (w_posts w) rq = Some resp
    /\ (400 <=? status_code resp) && (status_code resp <? 600) = false
    /\ body resp = Doc v
    /\ w_disk_fails w = false
    /\ Forall (fun e => quiet e /\ no_post e) pre
    /\ (not_str auth_code = false -> Forall (fun e => ~ is_prompt e) pre)
    /\ w_trace w5 = w_trace w ++ pre ++ [EvPost rq; EvFileWrite path (Doc v)]
    /\ w_files w5 = <[path := Utf8 (Doc v)]> (w_files w)
    /\ w_secrets w5 = w_secrets w /\ fixed w w5
    /\ GCPSecretStorage.write_secret {| GCPSecretStorage._project_id := project |} name
         (encode (json_dumps v)) w5 = (Ok nm, w6)
    /\ w' = set_trace (w_trace w6
                         ++ [EvLog "INFO" "Tokens guardados en %s y sincronizados en GCP"]) w6.
Proof.
  unfold bootstrap_tokens. intros H.
  rewrite (bind_run _ _ _ (w_config w) w) in H by reflexivity.
  apply bind_ok in H as (app_id & w1 & E1 & H). apply require_ok in E1 as [K1 ->].
  apply bind_ok in H as (client_secret & w2 & E2 & H). apply require_ok in E2 as [K2 ->].
  apply bind_ok in H as (redirect_uri & w3 & E3 & H). apply require_ok in E3 as [K3 ->].
  apply bind_ok in H as (name & w4 & E4 & H). apply require_ok in E4 as [K4 ->].
  apply bind_ok in H as (project & w5 & E5 & H). apply require_ok in E5 as [K5 ->].
  erewrite bind_run in H by apply Path_get.
  exists app_id, client_secret, redirect_uri, name, project.
  unfold code_of, exchange_request.
  destruct (not_str auth_code) eqn:En.
  - revert H. run_exchange.
    destruct (strip (w_stdin w) =? "")%string eqn:Ec; simpl; [discriminate|].
    destruct (w_endpoint w (w_posts w) _) as [resp|] eqn:Ea; simpl; [|discriminate].
    destruct ((400 <=? status_code resp) && (status_code resp <? 600)) eqn:Es; simpl;
      [discriminate|].
    destruct (body resp) as [| |v0] eqn:Eb; simpl; try discriminate.
    destruct (w_disk_fails w) eqn:Ed; simpl; [discriminate|].
    rewrite Ed. intros H.
    apply bind_ok in H as (storage & w6 & E6 & H).
    unfold GCPSecretStorage.__init__ in E6.
    destruct (project =? "")%string eqn:Ep; [discriminate|]. injection E6 as <- <-.
    apply bind_ok in H as (nm & w7 & E7 & H). injection H as <- <-.
    exists resp,
      [EvRequire "MELI_APP_ID"; EvRequire "MELI_CLIENT_SECRET";
       EvRequire "MELI_REDIRECT_URI"; EvRequire "MELI_TOKENS_SECRET_NAME";
       EvRequire "GCP_PROJECT_ID";
       EvPrint "=== MercadoLibre OAuth Bootstrap ===";
       EvPrint "1) Visita y autoriza en:";
       EvPrint (build_auth_url app_id redirect_uri);
       EvLog "INFO" "Intercambiando code por tokens..."].
    eexists _, nm, w7.
    split; [done|]. split; [done|]. split; [done|]. split; [done|]. split; [done|].
    split; [by apply String.eqb_neq|]. split; [by apply String.eqb_neq|].
    split; [done|]. split; [done|]. split; [done|]. split; [done|].
    split; [repeat constructor|]. split; [done|].
    split; [|split; [|split; [|split; [|split; [exact E7|done]]]]].
    + simpl. rewrite <- !app_assoc. reflexivity.
    + done.
    + done.
    + by repeat split.
  - destruct auth_code as [c|]; [|done]. simpl in En. revert H. run_exchange.
    rewrite En. simpl.
    destruct (w_endpoint w (w_posts w) _) as [resp|] eqn:Ea; simpl; [|discriminate].
    destruct ((400 <=? status_code resp) && (status_code resp <? 600)) eqn:Es; simpl;
      [discriminate|].
    destruct (body resp) as [| |v0] eqn:Eb; simpl; try discriminate.
    destruct (w_disk_fails w) eqn:Ed; simpl; [discriminate|].
    rewrite Ed. intros H.
    apply bind_ok in H as (storage & w6 & E6 & H).
    unfold GCPSecretStorage.__init__ in E6.
    destruct (project =? "")%string eqn:Ep; [discriminate|]. injection E6 as <- <-.
    apply bind_ok in H as (nm & w7 & E7 & H). injection H as <- <-.
    exists resp,
      [EvRequire "MELI_APP_ID"; EvRequire "MELI_CLIENT_SECRET";
       EvRequire "MELI_REDIRECT_URI"; EvRequire "MELI_TOKENS_SECRET_NAME";
       EvRequire "GCP_PROJECT_ID";
       EvLog "INFO" "Intercambiando code por tokens..."].
    eexists _, nm, w7.
    split; [done|]. split; [done|]. split; [done|]. split; [done|]. split; [done|].
    split; [by apply String.eqb_neq|]. split; [by apply String.eqb_neq|].
    split; [done|]. split; [done|]. split; [done|]. split; [done|].
    split; [repeat constructor|].
    split; [intros _; repeat constructor; by intros []|].
    split; [|split; [|split; [|split; [|split; [exact E7|done]]]]].
    + simpl. rewrite <- !app_assoc. reflexivity.
    + done.
    + done.
    + by repeat split.
Qed.

Lemma posted_quiet_no_post seg :
  Forall (fun e => quiet e /\ no_post e) seg -> posted seg = [] /\ persist_order seg = [].
Proof.
  induction 1 as [|e seg [Q P] _ [IH1 IH2]]; [done|].
  split.
  - destruct e; first [done | exact IH1].
  - change (persist_order ([e] ++ seg) = []). rewrite persist_order_app, IH2.
    unfold persist_order, quiet in *. simpl. by rewrite Q.
Qed.

(** X14.  What a bootstrap that returns has done: it posted exactly one
    request, the exchange of the authorization code (the one passed, else
    the stripped line typed at the prompt); the endpoint answered with a
    JSON body, and that body, as it is, is the value returned, the content
    of the token file and the payload of the secret's newest, enabled
    version; the file was written before the secret; and when a code was
    passed nothing was printed. *)
Theorem bootstrap_tokens_persists_response auth_code w v w' :
  bootstrap_tokens auth_code w = (Ok v, w') ->
  exists app_id client_secret redirect_uri name project resp nm seg,
    let rq := exchange_request app_id client_secret (code_of auth_code w) redirect_uri in
    let path := default "tokens.json" (w_config w !! "MELI_TOKEN_FILE") in
    w_config w !! "MELI_APP_ID" = Some app_id
    /\ w_config w !! "MELI_CLIENT_SECRET" = Some client_secret
    /\ w_config w !! "MELI_REDIRECT_URI" = Some redirect_uri
    /\ w_config w !! "MELI_TOKENS_SECRET_NAME" = Some name
    /\ w_config w !! "GCP_PROJECT_ID" = Some project
    /\ code_of auth_code w <> ""
    /\ w_endpoint w (w_posts w) rq = Some resp /\ body resp = Doc v
    /\ w_files w' = <[path := Utf8 (Doc v)]> (w_files w)
    /\ latest_version w' (secret_path project name)
       = Some {| v_name := nm; v_state := ENABLED; v_data := Utf8 (Doc v) |}
    /\ w_trace w' = w_trace w ++ seg
    /\ posted seg = [rq]
    /\ persist_order seg = [FileCacheWrite; SecretStoreWrite]
    /\ (not_str auth_code = false -> Forall (fun e => ~ is_prompt e) seg).
Proof.
  intros H. apply bootstrap_tokens_ok in H
    as (app_id & client_secret & redirect_uri & name & project & resp & pre & w5 & nm & w6 & H).
  simpl in H.
  destruct H as (K1 & K2 & K3 & K4 & K5 & Hp & Hc & Ea & Es & Eb & Ed & Hpre & Hprompt
                 & T5 & F5 & S5 & X5 & E & ->).
  pose proof (write_secret_files _ _ _ _ _ _ E) as F6.
  pose proof (write_secret_ok _ _ _ _ _ _ E) as (api & T6 & Hapi & Papi).
  apply write_secret_state in E as (_ & rest & Es6 & _).
  destruct (posted_quiet_no_post _ Hpre) as [P1 P2].
  exists app_id, client_secret, redirect_uri, name, project, resp, nm.
  eexists (pre ++ [EvPost _; EvFileWrite _ (Doc v)] ++ api ++ [EvLog _ _]).
  cbv zeta. split; [done|]. split; [done|]. split; [done|]. split; [done|]. split; [done|].
  split; [done|]. split; [done|]. split; [done|].
  split; [simpl; by rewrite F6, F5|].
  split; [unfold latest_version; simpl; by rewrite (Es6 : w_secrets w6 !! secret_path project name = _)|].
  split; [simpl; by rewrite T6, T5, <- !app_assoc|]. split; [|split].
  - rewrite !posted_app, P1, (posted_api_only api) by done. reflexivity.
  - rewrite !persist_order_app, P2, Papi. reflexivity.
  - intros Hn. apply Forall_app. split; [by apply Hprompt|]. simpl.
    constructor; [by intros []|]. constructor; [by intros []|].
    apply Forall_app. split; [|by repeat constructor; intros []].
    eapply Forall_impl; [exact Hapi|]. intros e He Hq. by destruct e.
Qed.

Lemma bootstrap_tokens_persists_response_witness :
  w_files Scenario.bootstrapped.2 = {[ "tokens.json" := Utf8 (Doc Sample.fresh_answer) ]}
  /\ exists seg, w_trace Scenario.bootstrapped.2 = seg
                 /\ persist_order seg = [FileCacheWrite; SecretStoreWrite].
Proof.
  destruct (bootstrap_tokens_persists_response (Some "code-1")
              (Scenario.empty_world 200 (Doc Sample.fresh_answer))
              Sample.fresh_answer Scenario.bootstrapped.2)
    as (a & c & u & n & p & resp & nm & seg & _ & _ & _ & _ & _ & _ & _ & _ & F & _ & T & _ & P & _);
    [vm_compute; reflexivity|].
  split; [rewrite F; vm_compute; reflexivity|].
  exists seg. split; [exact T | exact P].
Defined.

(** X19.  What the initializer stores, the readers see: after a bootstrap
    that returned, [get_token_payload] returns the token set the bootstrap
    returned (the service not failing the read). *)
Theorem reader_sees_bootstrapped_tokens auth_code w v w' :
  bootstrap_tokens auth_code w = (Ok v, w') ->
  (forall name project,
     w_config w !! "MELI_TOKENS_SECRET_NAME" = Some name ->
     w_config w !! "GCP_PROJECT_ID" = Some project ->
     w_api_fault w (AccessSecretVersion (LatestPath (secret_path project name))) = None) ->
  (get_token_payload w').1 = Ok v.
Proof.
  intros H Hf. apply bootstrap_tokens_ok in H
    as (app_id & client_secret & redirect_uri & name & project & resp & pre & w5 & nm & w6 & H).
  simpl in H.
  destruct H as (_ & _ & _ & K4 & K5 & Hp & _ & _ & _ & _ & _ & _ & _
                 & _ & _ & _ & X5 & E & ->).
  specialize (Hf _ _ K4 K5).
  pose proof (write_secret_fixed _ _ _ _ _ _ E) as X6.
  apply write_secret_state in E as (_ & rest & Es6 & _).
  unfold GCPSecretStorage._secret_path in Es6. simpl in Es6.
  destruct X5 as (Xc & _ & Xf & _). destruct X6 as (Xc6 & _ & Xf6 & _).
  rewrite <- Xc, <- Xc6 in K4, K5. rewrite <- Xf, <- Xf6 in Hf.
  apply String.eqb_neq in Hp.
  by exec.
Qed.

Lemma reader_sees_bootstrapped_tokens_witness :
  (get_token_payload Scenario.bootstrapped.2).1 = Ok Sample.fresh_answer.
Proof.
  apply (reader_sees_bootstrapped_tokens (Some "code-1")
           (Scenario.empty_world 200 (Doc Sample.fresh_answer)));
    [vm_compute; reflexivity | reflexivity].
Defined.

(** X20.  The initializer hands over to the rotator.  After a bootstrap
    that returned a truthy token set, and with a rotation interval that
    converts to an integer, constructing a [TokenRotator] succeeds: it holds
    the bootstrapped token set and that interval, and construction posts
    nothing and changes neither the files nor the secrets. *)
Theorem rotator_starts_from_bootstrapped_tokens auth_code w v w' interval :
  bootstrap_tokens auth_code w = (Ok v, w') ->
  truthy v = true ->
  py_int (ConfigManager.get (w_config w) "ROTATION_INTERVAL_SECONDS"
            (JInt DEFAULT_ROTATION_INTERVAL)) = Ok interval ->
  exists self w'',
    TokenRotator.__init__ w' = (Ok self, w'')
    /\ TokenRotator._tokens self = v
    /\ TokenRotator.rotation_interval_seconds self = interval
    /\ w_files w'' = w_files w' /\ w_secrets w'' = w_secrets w'
    /\ posted (w_trace w'') = posted (w_trace w').
Proof.
  intros H Ht Hi. apply bootstrap_tokens_ok in H
    as (app_id & client_secret & redirect_uri & name & project & resp & pre & w5 & nm & w6 & H).
  simpl in H.
  destruct H as (K1 & K2 & _ & K4 & K5 & Hp & _ & _ & _ & _ & _ & _ & _
                 & _ & F5 & _ & X5 & E & ->).
  pose proof (write_secret_fixed _ _ _ _ _ _ E) as X6.
  pose proof (write_secret_files _ _ _ _ _ _ E) as F6.
  destruct X5 as (Xc & _). destruct X6 as (Xc6 & _).
  assert (w_config w6 = w_config w) as C6 by by rewrite Xc6.
  apply String.eqb_neq in Hp.
  unfold TokenRotator.__init__.
  rewrite (bind_run _ _ _ (w_config w) _) by (unfold load_config; simpl; by rewrite C6).
  erewrite bind_run by (by apply require_found).
  erewrite bind_run by (by apply require_found).
  erewrite bind_run by (by apply require_found).
  erewrite bind_run by (by apply require_found).
  erewrite bind_run by apply Path_get.
  rewrite Hi. erewrite bind_run by reflexivity.
  unfold GCPSecretStorage.__init__ at 1. rewrite Hp.
  erewrite bind_run by reflexivity.
  match goal with
  | |- context [bind (TokenRotator._bootstrap_tokens ?self) _ ?w0] =>
      assert (TokenRotator._bootstrap_tokens self w0 = (Ok v, w0)) as Eb
  end.
  { assert (w_files w6 !! default "tokens.json" (w_config w !! "MELI_TOKEN_FILE")
            = Some (Utf8 (Doc v))) as Ef
      by by rewrite F6, F5, lookup_insert_eq.
    by exec. }
  erewrite bind_run by exact Eb.
  eexists _, _. split; [reflexivity|]. simpl.
  split; [done|]. split; [done|]. split; [done|]. split; [done|].
  unfold posted. rewrite !omap_app. simpl. by rewrite !app_nil_r.
Qed.

Lemma rotator_starts_from_bootstrapped_tokens_witness :
  exists self w'',
    TokenRotator.__init__ Scenario.bootstrapped.2 = (Ok self, w'')
    /\ TokenRotator._tokens self = Sample.fresh_answer
    /\ TokenRotator.rotation_interval_seconds self = 14400.
Proof.
  destruct (rotator_starts_from_bootstrapped_tokens (Some "code-1")
              (Scenario.empty_world 200 (Doc Sample.fresh_answer))
              Sample.fresh_answer Scenario.bootstrapped.2 14400)
    as (self & w'' & E & T & I & _);
    [vm_compute; reflexivity | reflexivity | reflexivity |].
  exists self, w''. split; [exact E|]. split; [exact T | exact I].
Defined.
